(** * Email client: query engine, stats maintainer and mutation handlers

    A shallow embedding of the server side of the email client
    ([lib/schema.ts], [lib/emailQueries.ts], [lib/statsQueries.ts],
    [app/api/emails/route.ts], [app/api/emails/thread/[threadId]/route.ts])
    together with the properties of its specification.

    Conventions of the embedding:
    - a table is the list of its rows, in storage (rowid) order;
    - a drizzle condition ([eq], [and], [or], [like]) is a boolean function
      on a row; a row is selected when the condition evaluates to [true]
      (SQL's NULL counts as "not selected");
    - a timestamp column holds an integer (epoch seconds), [new Date()] is
      read from an explicit environment;
    - a handler is a function from the data store to a response and the
      data store it leaves behind; the data store itself never fails, so
      the 500 answers of the handlers' [catch] branches do not arise;
    - request payloads have their declared types ([CreateEmailRequest],
      the flags of PATCH as booleans), a field left out being [None]. *)

From Stdlib Require Import List ZArith NArith Bool Lia String Ascii.
From Stdlib Require Import Permutation Sorted.
Import ListNotations.
Open Scope Z_scope.

(** ** Strings

    A string is the list of its Unicode code points. *)

Module Str.

Definition t := list N.

Definition eq_dec : forall a b : t, {a = b} + {a <> b} := list_eq_dec N.eq_dec.

Definition eqb (a b : t) : bool := if eq_dec a b then true else false.

(** A string literal of the source, from its ASCII text. *)
Definition lit (s : string) : t := map N_of_ascii (list_ascii_of_string s).

(** ECMAScript [WhiteSpace] and [LineTerminator] code points, the characters
    removed by [String.prototype.trim] and skipped by [parseInt]. *)
Definition isWhiteSpace (c : N) : bool :=
  ((9 <=? c) && (c <=? 13) || (c =? 32) || (c =? 160) || (c =? 5760)
   || (8192 <=? c) && (c <=? 8202) || (c =? 8232) || (c =? 8233)
   || (c =? 8239) || (c =? 8287) || (c =? 12288) || (c =? 65279))%N.

Fixpoint trimStart (s : t) : t :=
  match s with
  | [] => []
  | c :: r => if isWhiteSpace c then trimStart r else s
  end.

Definition trimEnd (s : t) : t := rev (trimStart (rev s)).

(** [s.trim()] *)
Definition trim (s : t) : t := trimEnd (trimStart s).

(** JavaScript truthiness of a string: non-empty. *)
Definition truthy (s : t) : bool :=
  match s with [] => false | _ :: _ => true end.

(** [blank s]: [s] is empty or made of whitespace only. *)
Definition blank (s : t) : bool := forallb isWhiteSpace s.

(** ASCII lower-casing, the only case folding of SQLite's [LIKE]. *)
Definition lowerAscii (c : N) : N :=
  (if (65 <=? c) && (c <=? 90) then c + 32 else c)%N.

(** The part of a string before its first U+0000: SQLite's string functions
    read their arguments as NUL-terminated text. *)
Fixpoint untilNul (s : t) : t :=
  match s with
  | [] => []
  | c :: r => if (c =? 0)%N then [] else c :: untilNul r
  end.

(** SQLite's pattern comparison for LIKE without ESCAPE: [%] (37) matches
    any sequence of characters, [_] (95) exactly one, any other character
    itself up to ASCII case. *)
Fixpoint patternCompare (pattern text : t) : bool :=
  match pattern with
  | [] => match text with [] => true | _ :: _ => false end
  | c :: p =>
      if (c =? 37)%N then
        (fix any (x : t) : bool :=
           patternCompare p x || match x with [] => false | _ :: x' => any x' end) text
      else
        match text with
        | [] => false
        | d :: x =>
            ((c =? 95)%N || (lowerAscii c =? lowerAscii d)%N) && patternCompare p x
        end
  end.

(** SQLite's [text LIKE pattern]: the pattern and the text are compared up
    to their first U+0000. *)
Definition like (pattern text : t) : bool :=
  patternCompare (untilNul pattern) (untilNul text).

(** [parseInt(s, 10)]: leading whitespace is skipped, an optional sign is
    read, then the longest prefix of decimal digits; [None] is [NaN].
    (The value is exact: the rounding of integers beyond 2^53 to a double
    is outside the model.) *)
Definition digit (c : N) : option Z :=
  if ((48 <=? c) && (c <=? 57))%N then Some (Z.of_N c - 48) else None.

Fixpoint digits (acc : option Z) (s : t) : option Z :=
  match s with
  | [] => acc
  | c :: r =>
      match digit c with
      | Some d => digits (Some (10 * match acc with Some a => a | None => 0 end + d)) r
      | None => acc
      end
  end.

Definition parseInt (s : t) : option Z :=
  match trimStart s with
  | c :: r =>
      if (c =? 45)%N then option_map Z.opp (digits None r)
      else if (c =? 43)%N then digits None r
      else digits None (c :: r)
  | [] => None
  end.

End Str.

Definition str : Type := Str.t.
Notation "` s" := (Str.lit s) (at level 1, s at level 0, format "` s").

(** ** Schema ([lib/schema.ts]) *)

(** The two values of the [EmailDirection] enum, the declared type of the
    [direction] column and of a request's [direction]. *)
Inductive EmailDirection := INCOMING | OUTGOING.

Definition EmailDirection_eqb (a b : EmailDirection) : bool :=
  match a, b with
  | INCOMING, INCOMING | OUTGOING, OUTGOING => true
  | _, _ => false
  end.

(** A row of the [emails] table. *)
Record Email := mkEmail {
  id : Z;
  threadId : str;
  subject : str;
  from : str;
  to : str;
  content : option str;
  isRead : bool;
  isImportant : bool;
  isDeleted : bool;
  direction : EmailDirection;
  createdAt : Z;
  updatedAt : Z
}.

(** A row of the [email_stats] lookup table; it has no column for the
    deleted count. *)
Record EmailStatsRow := mkEmailStatsRow {
  stats_id : Z;
  inboxEmailCount : Z;
  unreadEmailCount : Z;
  importantEmailCount : Z;
  sentEmailCount : Z;
  stats_updatedAt : Z
}.

(** [EmailStats] of [types/email.ts]. *)
Record EmailStats := mkEmailStats {
  total : Z;
  unread : Z;
  important : Z;
  deleted : Z;
  sent : Z
}.

(** [EmailFilter] of [types/email.ts]. *)
Module EmailFilter.
Inductive t := inbox | important | sent | unread | trash.

(** The routes cast the raw [filter] query parameter to [EmailFilter]
    unchecked; every [switch] on it sends a string that is none of the five
    names to its [default] branch, as it does [undefined]. *)
Definition ofParam (p : option str) : option t :=
  match p with
  | None => None
  | Some s =>
      if Str.eqb s `"inbox" then Some inbox
      else if Str.eqb s `"important" then Some important
      else if Str.eqb s `"sent" then Some sent
      else if Str.eqb s `"unread" then Some unread
      else if Str.eqb s `"trash" then Some trash
      else None
  end.
End EmailFilter.

(** ** Conditions and queries (the drizzle-orm fragment in use) *)

(** A condition over the [emails] table. *)
Definition SQL : Type := Email -> bool.

Module Sql.

(** [and(c1, ..., cn)] and [or(c1, ..., cn)] *)
Definition and (cs : list SQL) : SQL := fun e => forallb (fun c => c e) cs.
Definition or (cs : list SQL) : SQL := fun e => existsb (fun c => c e) cs.

(** [eq(column, value)] at the column types in use *)
Definition eq_bool (col : Email -> bool) (v : bool) : SQL := fun e => Bool.eqb (col e) v.
Definition eq_str (col : Email -> str) (v : str) : SQL := fun e => Str.eqb (col e) v.
Definition eq_int (col : Email -> Z) (v : Z) : SQL := fun e => col e =? v.
Definition eq_direction (v : EmailDirection) : SQL :=
  fun e => EmailDirection_eqb (direction e) v.

(** [like(column, pattern)]; on a NULL column the result is NULL. *)
Definition like (col : Email -> option str) (pattern : str) : SQL :=
  fun e => match col e with Some x => Str.like pattern x | None => false end.

(** [db.select().from(emails).where(c)] *)
Definition select_where (c : SQL) (rows : list Email) : list Email :=
  List.filter c rows.

(** [ORDER BY]: a stable insertion sort of the rows by [le]; rows with equal
    keys keep their storage order (SQL leaves that order open). *)
Fixpoint insert_sorted {A : Type} (le : A -> A -> bool) (x : A) (l : list A) : list A :=
  match l with
  | [] => [x]
  | y :: r => if le x y then x :: y :: r else y :: insert_sorted le x r
  end.

Definition orderBy {A : Type} (le : A -> A -> bool) (rows : list A) : list A :=
  fold_right (insert_sorted le) [] rows.

Definition asc (col : Email -> Z) : Email -> Email -> bool := fun a b => col a <=? col b.
Definition desc (col : Email -> Z) : Email -> Email -> bool := fun a b => col b <=? col a.

(** [MAX(column)] over a group; NULL ([None]) on the empty group. *)
Fixpoint MAX (l : list Z) : option Z :=
  match l with
  | [] => None
  | x :: r => match MAX r with Some m => Some (Z.max x m) | None => Some x end
  end.

(** [COUNT( * )] *)
Definition COUNT (rows : list Email) : Z := Z.of_nat (List.length rows).

End Sql.

(** ** Query engine ([lib/emailQueries.ts]) *)

Record EmailQueryParams := mkParams {
  q_filter : option EmailFilter.t;
  q_query : option str;
  q_threaded : bool
}.

Definition getFilterCondition (filter : option EmailFilter.t) : SQL :=
  match filter with
  | Some EmailFilter.trash => Sql.eq_bool isDeleted true
  | Some EmailFilter.important => Sql.and [Sql.eq_bool isImportant true; Sql.eq_bool isDeleted false]
  | Some EmailFilter.sent => Sql.and [Sql.eq_direction OUTGOING; Sql.eq_bool isDeleted false]
  | Some EmailFilter.unread => Sql.and [Sql.eq_bool isRead false; Sql.eq_bool isDeleted false]
  | Some EmailFilter.inbox | None => Sql.and [Sql.eq_direction INCOMING; Sql.eq_bool isDeleted false]
  end.

Definition getSearchConditions (query : str) : SQL :=
  let searchTerm := (37%N :: query) ++ [37%N] in
  Sql.or [ Sql.like (fun e => Some (subject e)) searchTerm;
       Sql.like (fun e => Some (to e)) searchTerm;
       Sql.like (fun e => Some (from e)) searchTerm;
       Sql.like content searchTerm ].

(** A row of the [latest] subquery. *)
Record Latest := mkLatest {
  latest_threadId : str;
  maxCreatedAt : option Z
}.

(** [SELECT thread_id, MAX(created_at) FROM emails WHERE ... GROUP BY thread_id]:
    one row for each distinct thread id among the selected rows. *)
Definition latest (conditions : list SQL) (emails : list Email) : list Latest :=
  let selected := Sql.select_where (Sql.and conditions) emails in
  map (fun t => mkLatest t (Sql.MAX (map createdAt (List.filter (Sql.eq_str threadId t) selected))))
      (nodup Str.eq_dec (map threadId selected)).

(** The join condition of [fetchThreadedEmails]. *)
Definition joins (e : Email) (l : Latest) : bool :=
  Str.eqb (threadId e) (latest_threadId l)
  && match maxCreatedAt l with Some m => createdAt e =? m | None => false end.

Definition innerJoin (emails : list Email) (subquery : list Latest) : list (Email * Latest) :=
  flat_map (fun e => map (fun l => (e, l)) (List.filter (joins e) subquery)) emails.

Definition fetchThreadedEmails (conditions : list SQL) (emails : list Email) : list Email :=
  let subquery := latest conditions emails in
  let result := innerJoin emails subquery in
  map fst (Sql.orderBy (fun r1 r2 => Sql.desc createdAt (fst r1) (fst r2)) result).

Definition fetchEmails (params : EmailQueryParams) (emails : list Email) : list Email :=
  let conditions :=
    getFilterCondition (q_filter params)
    :: match q_query params with
       | Some query =>
           if Str.truthy query && Str.truthy (Str.trim query)
           then [getSearchConditions (Str.trim query)]
           else []
       | None => []
       end in
  if q_threaded params
  then fetchThreadedEmails conditions emails
  else Sql.orderBy (Sql.desc createdAt) (Sql.select_where (Sql.and conditions) emails).

(** ** Data store

    The two tables, and the AUTOINCREMENT counter of [emails.id]. *)

Record DB := mkDB {
  emails : list Email;
  emails_seq : Z;
  emailStats : list EmailStatsRow
}.

(** What a request reads from outside the store: the clock ([new Date()])
    and the thread id [generateThreadId()] would return. *)
Record Env := mkEnv {
  now : Z;
  generateThreadId : str
}.

(** Database actions thread the store. *)
Definition M (A : Type) : Type := DB -> A * DB.

Definition ret {A : Type} (a : A) : M A := fun db => (a, db).

Definition bind {A B : Type} (m : M A) (k : A -> M B) : M B :=
  fun db => let (a, db') := m db in k a db'.

Declare Scope db_scope.
Delimit Scope db_scope with db.
Notation "'await' x <- m ; k" := (bind m (fun x => k))
  (at level 10, x name, m at level 100, k at level 200) : db_scope.

Module Db.

(** [db.select().from(emails).where(c)] *)
Definition select (c : SQL) : M (list Email) :=
  fun db => (Sql.select_where c (emails db), db).

(** [db.update(emails).set(s).where(c).returning()] *)
Definition update (set : Email -> Email) (c : SQL) : M (list Email) :=
  fun db =>
    (map set (Sql.select_where c (emails db)),
     mkDB (map (fun e => if c e then set e else e) (emails db))
          (emails_seq db) (emailStats db)).

(** [db.insert(emails).values(v).returning()]; [v] is the row but for its
    id, which AUTOINCREMENT takes above every id the table ever held. *)
Definition insert (values : Z -> Email) : M (list Email) :=
  fun db =>
    let newId := fold_right Z.max (emails_seq db) (map id (emails db)) + 1 in
    ([values newId],
     mkDB (emails db ++ [values newId]) newId (emailStats db)).

(** [db.select().from(emailStats).where(eq(emailStats.id, i))] *)
Definition selectStats (i : Z) : M (list EmailStatsRow) :=
  fun db => (List.filter (fun r => stats_id r =? i) (emailStats db), db).

(** [db.insert(emailStats).values(row).onConflictDoUpdate({target: id, set})] *)
Definition upsertStats (row : EmailStatsRow) (set : EmailStatsRow -> EmailStatsRow) : M unit :=
  fun db =>
    let conflict r := stats_id r =? stats_id row in
    (tt,
     mkDB (emails db) (emails_seq db)
          (if existsb conflict (emailStats db)
           then map (fun r => if conflict r then set r else r) (emailStats db)
           else emailStats db ++ [row])).

End Db.

(** ** Stats maintainer ([lib/statsQueries.ts]) *)

Definition STATS_ROW_ID : Z := 1.

Open Scope db_scope.

Definition recalculateStats (env : Env) : M EmailStats :=
  await inboxResult <-
    Db.select (Sql.and [Sql.eq_direction INCOMING; Sql.eq_bool isDeleted false]);
  await unreadResult <-
    Db.select (Sql.and [Sql.eq_direction INCOMING; Sql.eq_bool isRead false;
                        Sql.eq_bool isDeleted false]);
  await importantResult <-
    Db.select (Sql.and [Sql.eq_bool isImportant true; Sql.eq_bool isDeleted false]);
  await deletedResult <- Db.select (Sql.eq_bool isDeleted true);
  await sentResult <-
    Db.select (Sql.and [Sql.eq_direction OUTGOING; Sql.eq_bool isDeleted false]);
  let stats :=
    {| total := Sql.COUNT inboxResult;
       unread := Sql.COUNT unreadResult;
       important := Sql.COUNT importantResult;
       deleted := Sql.COUNT deletedResult;
       sent := Sql.COUNT sentResult |} in
  await _ <- Db.upsertStats
    {| stats_id := STATS_ROW_ID;
       inboxEmailCount := total stats;
       unreadEmailCount := unread stats;
       importantEmailCount := important stats;
       sentEmailCount := sent stats;
       stats_updatedAt := now env |}
    (fun r =>
       {| stats_id := stats_id r;
          inboxEmailCount := total stats;
          unreadEmailCount := unread stats;
          importantEmailCount := important stats;
          sentEmailCount := sent stats;
          stats_updatedAt := now env |});
  ret stats.

Definition getStats (env : Env) : M EmailStats :=
  await result <- Db.selectStats STATS_ROW_ID;
  match result with
  | [] => recalculateStats env
  | row :: _ =>
      ret {| total := inboxEmailCount row;
             unread := unreadEmailCount row;
             important := importantEmailCount row;
             deleted := 0;
             sent := sentEmailCount row |}
  end.

Definition invalidateStats (env : Env) : M unit :=
  await _ <- recalculateStats env; ret tt.

(** ** Responses *)

Inductive Payload :=
| Emails (emails : list Email) (count : Z)
| Created (email : option Email)
| Updated (email : Email) (emails : list Email) (stats : EmailStats)
| Message (message : str) (stats : EmailStats)
| Stats (data : EmailStats).

Inductive Response :=
| errorResponse (error : str) (status : Z)
| successResponse (data : Payload) (status : Z).

(** The value of a string that may be [null] or [undefined], when it is
    truthy (non-empty). *)
Definition truthyStr (x : option str) : option str :=
  match x with Some s => if Str.truthy s then Some s else None | None => None end.

(** The same for a number: zero is falsy. *)
Definition truthyInt (x : option Z) : option Z :=
  match x with Some i => if i =? 0 then None else Some i | None => None end.

(** [x] when [x?.trim()] is truthy *)
Definition nonBlank (x : option str) : option str :=
  match x with
  | Some s => if Str.truthy (Str.trim s) then Some s else None
  | None => None
  end.

(** ** Request payloads *)

(** [CreateEmailRequest]; a field the body leaves out is [None]. *)
Module CreateEmailRequest.
Record t := mk {
  subject : option str;
  to : option str;
  cc : option str;
  bcc : option str;
  content : option str;
  threadId : option str;
  direction : option EmailDirection
}.
End CreateEmailRequest.

(** The body of PATCH. *)
Module UpdateEmailRequest.
Record t := mk {
  id : option Z;
  threadId : option str;
  isRead : option bool;
  isImportant : option bool;
  isDeleted : option bool
}.
End UpdateEmailRequest.

(** The query parameters of DELETE, as [searchParams.get] returns them. *)
Module DeleteParams.
Record t := mk {
  id : option str;
  threadId : option str;
  filter : option str
}.
End DeleteParams.

(** ** Email routes ([app/api/emails/route.ts]) *)

Definition GET (filter query threaded : option str) : M Response :=
  fun db =>
    let emailList :=
      fetchEmails
        {| q_filter := EmailFilter.ofParam (truthyStr filter);
           q_query := truthyStr query;
           q_threaded := match threaded with
                         | Some s => Str.eqb s `"true"
                         | None => false
                         end |}
        (emails db) in
    (successResponse (Emails emailList (Z.of_nat (List.length emailList))) 200, db).

(** The [emails] table has no [cc] and [bcc] columns: these two values of
    the insert are not stored. *)
Definition POST (env : Env) (body : CreateEmailRequest.t) : M Response :=
  match nonBlank (CreateEmailRequest.subject body) with
  | None => ret (errorResponse `"Subject is required" 400)
  | Some subject' =>
      match nonBlank (CreateEmailRequest.to body) with
      | None => ret (errorResponse `"Recipient (to) is required" 400)
      | Some to' =>
          await inserted <-
            Db.insert (fun newId =>
              {| id := newId;
                 threadId :=
                   match truthyStr (CreateEmailRequest.threadId body) with
                   | Some t => t
                   | None => generateThreadId env
                   end;
                 subject := Str.trim subject';
                 from := `"me@company.com";
                 to := Str.trim to';
                 content :=
                   match truthyStr (option_map Str.trim (CreateEmailRequest.content body)) with
                   | Some c => Some c
                   | None => Some []
                   end;
                 isRead := true;
                 isImportant := false;
                 isDeleted := false;
                 direction :=
                   match CreateEmailRequest.direction body with
                   | Some d => d
                   | None => OUTGOING
                   end;
                 createdAt := now env;
                 updatedAt := now env |});
          await _ <- invalidateStats env;
          ret (successResponse (Created (hd_error inserted)) 201)
      end
  end.

(** [{ updatedAt: new Date(), ...(isRead !== undefined && { isRead }), ... }]
    applied to a row *)
Definition updateData (env : Env) (body : UpdateEmailRequest.t) (e : Email) : Email :=
  {| id := id e;
     threadId := threadId e;
     subject := subject e;
     from := from e;
     to := to e;
     content := content e;
     isRead := match UpdateEmailRequest.isRead body with Some b => b | None => isRead e end;
     isImportant :=
       match UpdateEmailRequest.isImportant body with Some b => b | None => isImportant e end;
     isDeleted :=
       match UpdateEmailRequest.isDeleted body with Some b => b | None => isDeleted e end;
     direction := direction e;
     createdAt := createdAt e;
     updatedAt := now env |}.

(** The rows PATCH addresses:
    [threadId ? eq(emails.threadId, threadId) : eq(emails.id, id)],
    and [None] when [!id && !threadId]. *)
Definition patchCondition (body : UpdateEmailRequest.t) : option SQL :=
  match truthyStr (UpdateEmailRequest.threadId body), truthyInt (UpdateEmailRequest.id body) with
  | Some t, _ => Some (Sql.eq_str threadId t)
  | None, Some i => Some (Sql.eq_int id i)
  | None, None => None
  end.

Definition PATCH (env : Env) (body : UpdateEmailRequest.t) : M Response :=
  match patchCondition body with
  | None => ret (errorResponse `"Email ID or Thread ID is required" 400)
  | Some condition =>
      await updatedEmails <- Db.update (updateData env body) condition;
      match updatedEmails with
      | [] => ret (errorResponse `"Email(s) not found" 404)
      | email :: _ =>
          await stats <- recalculateStats env;
          ret (successResponse (Updated email updatedEmails stats) 200)
      end
  end.

(** [{ isDeleted: true, updatedAt: new Date() }] applied to a row *)
Definition softDelete (env : Env) (e : Email) : Email :=
  {| id := id e;
     threadId := threadId e;
     subject := subject e;
     from := from e;
     to := to e;
     content := content e;
     isRead := isRead e;
     isImportant := isImportant e;
     isDeleted := true;
     direction := direction e;
     createdAt := createdAt e;
     updatedAt := now env |}.

(** The rows DELETE addresses; [inl] carries the message of a 400. *)
Definition deleteCondition (p : DeleteParams.t) : str + SQL :=
  match truthyStr (DeleteParams.threadId p), truthyStr (DeleteParams.id p) with
  | Some t, _ =>
      let baseCondition := [Sql.eq_str threadId t; Sql.eq_bool isDeleted false] in
      inr (Sql.and
             (if match DeleteParams.filter p with
                 | Some f => Str.eqb f `"important"
                 | None => false
                 end
              then baseCondition ++ [Sql.eq_bool isImportant true]
              else baseCondition))
  | None, Some i =>
      match Str.parseInt i with
      | None => inl `"Invalid email ID"
      | Some emailId => inr (Sql.eq_int id emailId)
      end
  | None, None => inl `"Email ID or Thread ID is required"
  end.

Definition DELETE (env : Env) (p : DeleteParams.t) : M Response :=
  match deleteCondition p with
  | inl error => ret (errorResponse error 400)
  | inr condition =>
      await deleted <- Db.update (softDelete env) condition;
      match deleted with
      | [] => ret (errorResponse `"Email(s) not found" 404)
      | _ :: _ =>
          await stats <- recalculateStats env;
          ret (successResponse
                 (Message (match truthyStr (DeleteParams.threadId p) with
                           | Some _ => `"Thread moved to trash"
                           | None => `"Email moved to trash"
                           end) stats) 200)
      end
  end.

(** ** Thread route ([app/api/emails/thread/[threadId]/route.ts]) *)

Module ThreadRoute.

Definition getThreadFilterCondition (thread : str) (filter : option EmailFilter.t) : SQL :=
  let baseCondition := Sql.eq_str threadId thread in
  match filter with
  | Some EmailFilter.trash => Sql.and [baseCondition; Sql.eq_bool isDeleted true]
  | Some EmailFilter.important =>
      Sql.and [baseCondition; Sql.eq_bool isImportant true; Sql.eq_bool isDeleted false]
  | _ => Sql.and [baseCondition; Sql.eq_bool isDeleted false]
  end.

Definition GET (thread : str) (filter : option str) : M Response :=
  if negb (Str.truthy thread) then
    ret (errorResponse `"Thread ID is required" 400)
  else
    await rows <-
      Db.select (getThreadFilterCondition thread (EmailFilter.ofParam (truthyStr filter)));
    let threadEmails := Sql.orderBy (Sql.asc createdAt) rows in
    ret (successResponse (Emails threadEmails (Z.of_nat (List.length threadEmails))) 200).

End ThreadRoute.

(** ** Stats route ([app/api/emails/stats/route.ts]) *)

Module StatsRoute.

Definition GET (env : Env) : M Response :=
  await stats <- getStats env;
  ret (successResponse (Stats stats) 200).

End StatsRoute.

Close Scope db_scope.

(** ** Utilities ([lib/utils.ts])

    [length], [substring], [split] and the regular expression see a string
    as its UTF-16 code units: in this module a string is the list of its
    code units. (Trimming is the same on both views: every whitespace
    character is a single code unit.) *)

Module Utils.

(** [text.substring(0, n)] for an integer [n]; a negative [n] counts as 0. *)
Definition substring0 (text : str) (n : Z) : str := firstn (Z.to_nat n) text.

(** [truncateText(text, maxLength = 30)], for an integer [maxLength]. *)
Definition truncateText (text : option str) (maxLength : option Z) : str :=
  let maxLength := match maxLength with Some n => n | None => 30 end in
  match truthyStr text with
  | None => `"No content"
  | Some text =>
      if Z.of_nat (List.length text) >? maxLength
      then substring0 text maxLength ++ `"..."
      else text
  end.

(** The class [[^\s@]] of the address pattern. *)
Definition addressChar (c : N) : bool := negb (Str.isWhiteSpace c) && negb (c =? 64)%N.

(** [s] up to its first [sep] and after it; [None] when [sep] is not in [s]. *)
Fixpoint cut (sep : N) (s : str) : option (str * str) :=
  match s with
  | [] => None
  | c :: r =>
      if (c =? sep)%N then Some ([], r)
      else match cut sep r with
           | Some (a, b) => Some (c :: a, b)
           | None => None
           end
  end.

(** [/^[^\s@]+@[^\s@]+\.[^\s@]+$/.test(s)]: a non-empty run of address
    characters, [@], then address characters with a dot that is neither the
    first nor the last of them. *)
Definition emailRegex_test (s : str) : bool :=
  match cut 64 s with
  | Some (name, domain) =>
      Str.truthy name && forallb addressChar name && forallb addressChar domain
      && match domain with
         | [] => false
         | _ :: rest => existsb (N.eqb 46) (removelast rest)
         end
  | None => false
  end.

Definition isValidEmail (email : str) : bool := emailRegex_test (Str.trim email).

(** [s.split(sep)] for a one-character separator *)
Fixpoint split (sep : N) (s : str) : list str :=
  match s with
  | [] => [[]]
  | c :: r =>
      if (c =? sep)%N then [] :: split sep r
      else match split sep r with
           | piece :: pieces => (c :: piece) :: pieces
           | [] => [[c]]
           end
  end.

Definition validateEmailList (emails : str) : bool :=
  if negb (Str.truthy (Str.trim emails)) then true
  else forallb (fun email => isValidEmail (Str.trim email)) (split 44 emails).

End Utils.

(** ** Optimistic updates ([hooks/useEmailQueries/useEmailMutations.ts]) *)

Module Optimistic.

(** The updater [useDeleteEmail] and [useRestoreEmail] apply to every cached
    list on [onMutate]:
    [old?.filter((email) => threadId ? email.threadId !== threadId : email.id !== emailId) ?? []] *)
Definition remove (emailId : Z) (thread : option str) (old : option (list Email)) : list Email :=
  match old with
  | Some rows =>
      List.filter
        (fun email =>
           match truthyStr thread with
           | Some t => negb (Str.eqb (threadId email) t)
           | None => negb (id email =? emailId)
           end) rows
  | None => []
  end.

End Optimistic.

(** * Vocabulary of the properties *)

(** ** The filter table of the specification

    [tablePredicate F] is the predicate the specification's filter table
    gives for [F], written from the table and not from the code. *)

Definition tablePredicate (F : EmailFilter.t) (e : Email) : bool :=
  match F with
  | EmailFilter.inbox => EmailDirection_eqb (direction e) INCOMING && negb (isDeleted e)
  | EmailFilter.unread => negb (isRead e) && negb (isDeleted e)
  | EmailFilter.important => isImportant e && negb (isDeleted e)
  | EmailFilter.sent => EmailDirection_eqb (direction e) OUTGOING && negb (isDeleted e)
  | EmailFilter.trash => isDeleted e
  end.

(** The conditions [fetchEmails] collects: the filter's, then the search's
    when the query is not blank. *)
Definition conditionsOf (params : EmailQueryParams) : list SQL :=
  getFilterCondition (q_filter params)
  :: match q_query params with
     | Some query =>
         if Str.truthy query && Str.truthy (Str.trim query)
         then [getSearchConditions (Str.trim query)]
         else []
     | None => []
     end.

(** The five aggregates of [recalculateStats], as the code selects them. *)
Definition aggregate (rows : list Email) : EmailStats :=
  {| total := Sql.COUNT (Sql.select_where
                (Sql.and [Sql.eq_direction INCOMING; Sql.eq_bool isDeleted false]) rows);
     unread := Sql.COUNT (Sql.select_where
                (Sql.and [Sql.eq_direction INCOMING; Sql.eq_bool isRead false;
                          Sql.eq_bool isDeleted false]) rows);
     important := Sql.COUNT (Sql.select_where
                (Sql.and [Sql.eq_bool isImportant true; Sql.eq_bool isDeleted false]) rows);
     deleted := Sql.COUNT (Sql.select_where (Sql.eq_bool isDeleted true) rows);
     sent := Sql.COUNT (Sql.select_where
                (Sql.and [Sql.eq_direction OUTGOING; Sql.eq_bool isDeleted false]) rows) |}.

(** The stats row agrees with a snapshot on its four stored counters. *)
Definition holds (s : EmailStats) (r : EmailStatsRow) : Prop :=
  inboxEmailCount r = total s /\ unreadEmailCount r = unread s
  /\ importantEmailCount r = important s /\ sentEmailCount r = sent s.

(** The cached row: the first row of [email_stats] with id [STATS_ROW_ID]. *)
Definition cachedRow (db : DB) : option EmailStatsRow :=
  hd_error (List.filter (fun r => stats_id r =? STATS_ROW_ID) (emailStats db)).

(** The selection of the thread route in words: the rows of the thread that
    are in the trash under the trash filter, that are important and not
    deleted under the important filter, and that are not deleted under any
    other filter or none. *)
Definition threadSelection (thread : str) (filter : option EmailFilter.t) (e : Email) : bool :=
  Str.eqb (threadId e) thread
  && match filter with
     | Some EmailFilter.trash => isDeleted e
     | Some EmailFilter.important => isImportant e && negb (isDeleted e)
     | _ => negb (isDeleted e)
     end.

(** A field of the create request is blank: left out, empty, or made of
    whitespace only. *)
Definition isBlank (x : option str) : bool :=
  match x with Some s => Str.blank s | None => true end.

(** [e] with its update time set to [t]. *)
Definition touch (t : Z) (e : Email) : Email :=
  {| id := id e; threadId := threadId e; subject := subject e; from := from e; to := to e;
     content := content e; isRead := isRead e; isImportant := isImportant e;
     isDeleted := isDeleted e; direction := direction e; createdAt := createdAt e;
     updatedAt := t |}.

(** Two rows agree on every column but [updatedAt]. *)
Definition sameButUpdatedAt (a b : Email) : Prop := touch 0 a = touch 0 b.

(** A condition that does not read [updatedAt]. *)
Definition blind (c : SQL) : Prop := forall a t, c (touch t a) = c a.

(** Soft-delete by id (the id as the query string carries it), then restore
    by id. *)
Definition deleteById (s : str) : DeleteParams.t := DeleteParams.mk (Some s) None None.

Definition restoreById (i : Z) : UpdateEmailRequest.t :=
  UpdateEmailRequest.mk (Some i) None None None (Some false).

(** Restore by thread id. *)
Definition restoreByThread (thread : str) : UpdateEmailRequest.t :=
  UpdateEmailRequest.mk None (Some thread) None None (Some false).

(** [q] occurs in [text], letters compared up to ASCII case. *)
Definition occursIn (q text : str) : Prop :=
  exists pre mid post,
    text = pre ++ mid ++ post
    /\ Forall2 (fun c d => Str.lowerAscii c = Str.lowerAscii d) q mid.

(** [q] holds none of LIKE's wildcards [%] and [_]. *)
Definition plain (q : str) : Prop := Forall (fun c => c <> 37%N /\ c <> 95%N) q.

(** The strings the address pattern matches, as the pattern reads: three
    non-empty runs of characters that are neither whitespace nor [@], the
    first two separated by [@], the last two by a dot. *)
Definition matchesEmailRegex (s : str) : Prop :=
  exists a b c,
    s = a ++ [64%N] ++ b ++ [46%N] ++ c
    /\ a <> [] /\ b <> [] /\ c <> []
    /\ forallb Utils.addressChar a = true
    /\ forallb Utils.addressChar b = true
    /\ forallb Utils.addressChar c = true.

(** ** Sample rows

    Three messages of thread [t1] received in the same second, the second
    of them in the trash. *)

Definition tie_kept : Email :=
  mkEmail 1 `"t1" `"Hello" `"a@b.com" `"me@company.com" (Some `"first") true false false INCOMING 100 100.

Definition tie_trashed : Email :=
  mkEmail 2 `"t1" `"Re: Hello" `"a@b.com" `"me@company.com" (Some `"second") true false true INCOMING 100 100.

Definition tie_sibling : Email :=
  mkEmail 3 `"t1" `"Re: Hello" `"c@d.com" `"me@company.com" (Some `"third") true false false INCOMING 100 100.

(** A sent reply in thread [t1]. *)
Definition reply_sent : Email :=
  mkEmail 4 `"t1" `"Re: Hello" `"me@company.com" `"a@b.com" (Some `"reply") true false false OUTGOING 150 150.

(** An important message of thread [t1]. *)
Definition starred : Email :=
  mkEmail 5 `"t1" `"Re: Hello" `"a@b.com" `"me@company.com" (Some `"fourth") true true false INCOMING 160 160.

(** An outgoing message marked unread, as PATCH can leave one. *)
Definition unread_outgoing : Email :=
  mkEmail 1 `"t1" `"Hi" `"me@company.com" `"a@b.com" (Some `"hello") false false false OUTGOING 100 200.

(** A message received into thread [t1], as a create request. *)
Definition received : CreateEmailRequest.t :=
  CreateEmailRequest.mk (Some `"Hello") (Some `"me@company.com") None None (Some `"hi")
                        (Some `"t1") (Some INCOMING).

(** The store after two such requests served within one second, starting
    from the empty store. *)
Definition two_received : DB :=
  let env := mkEnv 100 `"thread-x" in
  snd (POST env received (snd (POST env received (mkDB [] 0 [])))).

(** The create request of the specification's scenario. *)
Definition hi : CreateEmailRequest.t :=
  CreateEmailRequest.mk (Some `"Hi") (Some `"a@b.com") None None (Some `"hello") None None.

(** * Properties *)

(** ** Strings *)

Lemma Str_eqb_eq (a b : str) : Str.eqb a b = true <-> a = b.
Proof.
  unfold Str.eqb. destruct (Str.eq_dec a b); split; congruence.
Qed.

Lemma Str_eqb_refl (a : str) : Str.eqb a a = true.
Proof. now apply Str_eqb_eq. Qed.

Lemma Str_eqb_neq (a b : str) : Str.eqb a b = false <-> a <> b.
Proof.
  unfold Str.eqb. destruct (Str.eq_dec a b); split; congruence.
Qed.

Lemma trimStart_nil_blank (s : str) : Str.trimStart s = [] <-> Str.blank s = true.
Proof.
  induction s as [|c r IH]; simpl.
  - tauto.
  - destruct (Str.isWhiteSpace c); simpl.
    + exact IH.
    + split; discriminate.
Qed.

Lemma blank_trimStart (s : str) : Str.blank (Str.trimStart s) = Str.blank s.
Proof.
  induction s as [|c r IH]; simpl; [reflexivity|].
  destruct (Str.isWhiteSpace c) eqn:E; simpl; [exact IH | now rewrite E].
Qed.

Lemma blank_rev (s : str) : Str.blank (rev s) = Str.blank s.
Proof.
  unfold Str.blank. induction s as [|c r IH]; simpl; [reflexivity|].
  rewrite forallb_app, IH. simpl. rewrite andb_true_r. apply andb_comm.
Qed.

(** [s.trim()] is the empty (falsy) string exactly when [s] is blank. *)
Lemma truthy_trim (s : str) : Str.truthy (Str.trim s) = negb (Str.blank s).
Proof.
  unfold Str.trim, Str.trimEnd.
  destruct (Str.blank s) eqn:B.
  - apply trimStart_nil_blank in B. now rewrite B.
  - destruct (Str.trimStart (rev (Str.trimStart s))) as [|c r] eqn:E.
    + apply trimStart_nil_blank in E.
      rewrite blank_rev, blank_trimStart in E. congruence.
    + simpl. now destruct (rev r ++ [c]) eqn:F; [destruct (rev r); discriminate|].
Qed.

Lemma nonBlank_None (x : option str) :
  nonBlank x = None <-> x = None \/ exists s, x = Some s /\ Str.blank s = true.
Proof.
  unfold nonBlank. destruct x as [s|].
  - rewrite truthy_trim. destruct (Str.blank s) eqn:B; simpl; split.
    + intros _. right. now exists s.
    + reflexivity.
    + discriminate.
    + intros [H|[s' [H B']]]; [discriminate|]. injection H as ->. congruence.
  - split; [now left | reflexivity].
Qed.

(** ** Selection, ordering, aggregates *)

Section Ordering.
Context {A : Type} (le : A -> A -> bool).
Hypothesis le_total : forall a b, le a b = true \/ le b a = true.

Lemma insert_sorted_perm (x : A) (l : list A) :
  Permutation (x :: l) (Sql.insert_sorted le x l).
Proof.
  induction l as [|y r IH]; simpl; [reflexivity|].
  destruct (le x y); [reflexivity|].
  rewrite perm_swap. now constructor.
Qed.

Lemma orderBy_perm (l : list A) : Permutation l (Sql.orderBy le l).
Proof.
  induction l as [|x r IH]; simpl; [constructor|].
  rewrite <- insert_sorted_perm. now constructor.
Qed.

Lemma insert_sorted_HdRel (a x : A) (l : list A) :
  le a x = true -> HdRel (fun u v => le u v = true) a l ->
  HdRel (fun u v => le u v = true) a (Sql.insert_sorted le x l).
Proof.
  intros Hax Hl. destruct l as [|y r]; simpl.
  - now constructor.
  - destruct (le x y); constructor; [assumption|].
    now inversion Hl.
Qed.

Lemma insert_sorted_Sorted (x : A) (l : list A) :
  Sorted (fun u v => le u v = true) l ->
  Sorted (fun u v => le u v = true) (Sql.insert_sorted le x l).
Proof.
  induction 1 as [|y r Hr IH Hhd]; simpl.
  - repeat constructor.
  - destruct (le x y) eqn:E.
    + constructor; [now constructor | now constructor].
    + constructor; [assumption|].
      apply insert_sorted_HdRel; [|assumption].
      destruct (le_total x y); congruence.
Qed.

Lemma orderBy_Sorted (l : list A) : Sorted (fun u v => le u v = true) (Sql.orderBy le l).
Proof.
  induction l as [|x r IH]; simpl; [constructor|].
  now apply insert_sorted_Sorted.
Qed.

End Ordering.

Lemma Sorted_weaken {A : Type} (R R' : A -> A -> Prop) (l : list A) :
  (forall a b, R a b -> R' a b) -> Sorted R l -> Sorted R' l.
Proof.
  intros H. induction 1 as [|a l Hl IH Hd]; constructor; [exact IH|].
  destruct Hd; constructor. now apply H.
Qed.

Lemma orderBy_In {A : Type} (le : A -> A -> bool) (l : list A) (x : A) :
  In x (Sql.orderBy le l) <-> In x l.
Proof.
  split; apply Permutation_in; [symmetry|]; apply orderBy_perm.
Qed.

(** Ordering commutes with a map that the order cannot see. *)
Lemma orderBy_map {A B : Type} (f : A -> B) (leA : A -> A -> bool) (leB : B -> B -> bool)
      (l : list A) :
  (forall a b, leB (f a) (f b) = leA a b) ->
  Sql.orderBy leB (map f l) = map f (Sql.orderBy leA l).
Proof.
  intros H. induction l as [|x r IH]; simpl; [reflexivity|].
  rewrite IH. generalize (Sql.orderBy leA r) as s.
  induction s as [|y s IHs]; simpl; [reflexivity|].
  rewrite H. destruct (leA x y); simpl; [reflexivity | now rewrite IHs].
Qed.

Lemma asc_total (col : Email -> Z) (a b : Email) :
  Sql.asc col a b = true \/ Sql.asc col b a = true.
Proof. unfold Sql.asc. rewrite !Z.leb_le. lia. Qed.

Lemma desc_total (col : Email -> Z) (a b : Email) :
  Sql.desc col a b = true \/ Sql.desc col b a = true.
Proof. unfold Sql.desc. rewrite !Z.leb_le. lia. Qed.

Lemma MAX_spec (l : list Z) (m : Z) :
  Sql.MAX l = Some m -> In m l /\ forall x, In x l -> x <= m.
Proof.
  revert m. induction l as [|x r IH]; simpl; intros m H; [discriminate|].
  destruct (Sql.MAX r) as [m'|] eqn:E.
  - injection H as <-. destruct (IH m' eq_refl) as [Hin Hle]. split.
    + destruct (Z.max_spec x m') as [[_ ->]|[_ ->]]; auto.
    + intros y [<-|Hy]; [lia|]. specialize (Hle y Hy). lia.
  - injection H as <-. destruct r; [|simpl in E; destruct (Sql.MAX r); discriminate].
    split; [now left|]. intros y [<-|[]]. lia.
Qed.

Lemma MAX_nonempty (l : list Z) : l <> [] -> exists m, Sql.MAX l = Some m.
Proof.
  destruct l as [|x r]; [congruence|]. intros _. simpl.
  destruct (Sql.MAX r); eauto.
Qed.

(** ** The list query *)

Lemma getFilterCondition_table (F : EmailFilter.t) (e : Email) :
  getFilterCondition (Some F) e = tablePredicate F e.
Proof.
  destruct F; unfold tablePredicate; simpl;
    unfold Sql.eq_bool, Sql.eq_direction;
    destruct (isDeleted e), (isRead e), (isImportant e), (direction e); reflexivity.
Qed.

Lemma tablePredicate_deleted (F : EmailFilter.t) (e : Email) :
  tablePredicate F e = true -> isDeleted e = true -> F = EmailFilter.trash.
Proof.
  destruct F; simpl; intros H D; rewrite D in H; simpl in H;
    rewrite ?andb_false_r in H; congruence.
Qed.

Lemma fetchEmails_unfold (params : EmailQueryParams) (rows : list Email) :
  fetchEmails params rows =
  if q_threaded params
  then fetchThreadedEmails (conditionsOf params) rows
  else Sql.orderBy (Sql.desc createdAt) (Sql.select_where (Sql.and (conditionsOf params)) rows).
Proof. reflexivity. Qed.

Lemma conditionsOf_filter (params : EmailQueryParams) (e : Email) :
  Sql.and (conditionsOf params) e = true -> getFilterCondition (q_filter params) e = true.
Proof.
  unfold conditionsOf, Sql.and. simpl. intros H.
  now apply andb_true_iff in H.
Qed.

(** X1. Without threading, the list query returns exactly the rows that satisfy
    the filter and the search, newest first. *)
Theorem fetchEmails_unthreaded (params : EmailQueryParams) (rows : list Email) :
  q_threaded params = false ->
  Permutation (fetchEmails params rows) (List.filter (Sql.and (conditionsOf params)) rows)
  /\ Sorted (fun a b => createdAt b <= createdAt a) (fetchEmails params rows).
Proof.
  intros T. rewrite fetchEmails_unfold, T. split.
  - symmetry. apply orderBy_perm.
  - apply Sorted_weaken with (R := fun a b => Sql.desc createdAt a b = true).
    + intros a b. unfold Sql.desc. apply Z.leb_le.
    + apply orderBy_Sorted, desc_total.
Qed.

(** X2. Without threading, every returned row satisfies the table's predicate
    of the filter, and only the trash filter returns deleted rows. *)
Theorem fetchEmails_unthreaded_filter
        (F : EmailFilter.t) (query : option str) (rows : list Email) (e : Email) :
  In e (fetchEmails (mkParams (Some F) query false) rows) ->
  tablePredicate F e = true /\ (isDeleted e = true -> F = EmailFilter.trash).
Proof.
  intros H.
  assert (P : tablePredicate F e = true).
  { rewrite fetchEmails_unfold in H. simpl in H.
    apply orderBy_In in H. apply filter_In in H. destruct H as [_ H].
    apply conditionsOf_filter in H.
    now rewrite <- getFilterCondition_table. }
  split; [exact P | now apply tablePredicate_deleted].
Qed.

Lemma fetchEmails_unthreaded_filter_witness :
  let e := mkEmail 1 `"t1" `"Hi" `"a@b.com" `"me@company.com" None false false false INCOMING 100 100 in
  tablePredicate EmailFilter.inbox e = true
  /\ (isDeleted e = true -> EmailFilter.inbox = EmailFilter.trash).
Proof.
  intros e.
  apply (fetchEmails_unthreaded_filter EmailFilter.inbox None [e] e).
  vm_compute. now left.
Defined.

(** ** The threaded query in general *)

Lemma latest_In (cs : list SQL) (rows : list Email) (l : Latest) :
  In l (latest cs rows) <->
  (exists a, In a rows /\ Sql.and cs a = true /\ latest_threadId l = threadId a)
  /\ maxCreatedAt l =
     Sql.MAX (map createdAt
                (List.filter (Sql.eq_str threadId (latest_threadId l))
                             (Sql.select_where (Sql.and cs) rows))).
Proof.
  unfold latest. rewrite in_map_iff. split.
  - intros [t [<- Ht]]. simpl. split; [|reflexivity].
    apply nodup_In, in_map_iff in Ht. destruct Ht as [a [<- Ha]].
    apply filter_In in Ha. exists a. tauto.
  - intros [[a [Ha [Hc Ht]]] Hm]. exists (latest_threadId l). split.
    + destruct l as [t m]. simpl in *. now rewrite Hm.
    + apply nodup_In, in_map_iff. exists a. split; [now symmetry|].
      apply filter_In. tauto.
Qed.

Lemma latest_NoDup (cs : list SQL) (rows : list Email) :
  NoDup (map latest_threadId (latest cs rows)).
Proof.
  unfold latest. rewrite map_map. simpl. rewrite map_id. apply NoDup_nodup.
Qed.

Lemma fetchThreadedEmails_In (cs : list SQL) (rows : list Email) (e : Email) :
  In e (fetchThreadedEmails cs rows) <->
  In e rows /\ exists l, In l (latest cs rows) /\ joins e l = true.
Proof.
  unfold fetchThreadedEmails, innerJoin. rewrite in_map_iff. split.
  - intros [[a l] [<- H]]. apply orderBy_In, in_flat_map in H.
    destruct H as [b [Hb H]]. apply in_map_iff in H. destruct H as [l' [[= -> ->] H]].
    apply filter_In in H. simpl. split; [exact Hb | exists l; exact H].
  - intros [He [l [Hl Hj]]]. exists (e, l). split; [reflexivity|].
    apply orderBy_In, in_flat_map. exists e. split; [exact He|].
    apply in_map, filter_In. tauto.
Qed.

(** Every row the threaded query returns is a row of the table created at
    the latest creation time among the rows of its thread that match the
    conditions. *)
Theorem fetchThreadedEmails_latest (cs : list SQL) (rows : list Email) (e : Email) :
  In e (fetchThreadedEmails cs rows) ->
  In e rows
  /\ (exists a, In a rows /\ Sql.and cs a = true
                /\ threadId a = threadId e /\ createdAt a = createdAt e)
  /\ (forall a, In a rows -> Sql.and cs a = true -> threadId a = threadId e ->
                createdAt a <= createdAt e).
Proof.
  intros H. apply fetchThreadedEmails_In in H. destruct H as [He [l [Hl Hj]]].
  apply latest_In in Hl. destruct Hl as [_ Hm].
  unfold joins in Hj. apply andb_true_iff in Hj. destruct Hj as [Ht Hc].
  apply Str_eqb_eq in Ht. rewrite <- Ht in Hm. rewrite Hm in Hc. clear Hm.
  destruct (Sql.MAX _) as [m|] eqn:M; [|discriminate Hc].
  apply Z.eqb_eq in Hc. subst m. apply MAX_spec in M. destruct M as [Mi Mle].
  split; [exact He|]. split.
  - apply in_map_iff in Mi. destruct Mi as [a [Ec Ha]].
    apply filter_In in Ha. destruct Ha as [Ha Et]. apply filter_In in Ha.
    apply Str_eqb_eq in Et. exists a. tauto.
  - intros a Ha Hc Et. apply Mle, in_map, filter_In. split.
    + apply filter_In. tauto.
    + now apply Str_eqb_eq.
Qed.

Lemma filter_at_most_one {A : Type} (k : A -> str) (P : A -> bool) (t : str) (l : list A) :
  NoDup (map k l) -> (forall x, P x = true -> k x = t) ->
  List.filter P l = [] \/ exists x, List.filter P l = [x].
Proof.
  intros N H. induction l as [|x r IH]; simpl; [now left|].
  inversion N as [|? ? Hx Hr]; subst.
  destruct (P x) eqn:Px; [|now apply IH].
  right. exists x. f_equal. destruct (IH Hr) as [E|[y E]]; [exact E|].
  exfalso. apply Hx. assert (Hy : In y (List.filter P r)) by (rewrite E; now left).
  apply filter_In in Hy. destruct Hy as [Hy Py].
  rewrite (H x Px), <- (H y Py). now apply in_map.
Qed.

Lemma innerJoin_rows (rows : list Email) (sub : list Latest) :
  NoDup (map latest_threadId sub) ->
  map fst (innerJoin rows sub) = List.filter (fun a => existsb (joins a) sub) rows.
Proof.
  intros N. unfold innerJoin. induction rows as [|a r IH]; simpl; [reflexivity|].
  rewrite map_app, IH, map_map. simpl.
  assert (X : existsb (joins a) sub = match List.filter (joins a) sub with [] => false | _ => true end).
  { clear. induction sub as [|l s IHs]; simpl; [reflexivity|].
    destruct (joins a l); [reflexivity | exact IHs]. }
  rewrite X.
  destruct (filter_at_most_one latest_threadId (joins a) (threadId a) sub N) as [E|[l E]].
  - intros l Hl. unfold joins in Hl. apply andb_true_iff in Hl.
    symmetry. now apply Str_eqb_eq.
  - now rewrite E.
  - now rewrite E.
Qed.

Lemma NoDup_threads (Q : Email -> bool) (rows : list Email) :
  NoDup (map (fun a => (threadId a, createdAt a)) rows) ->
  (forall a b, In a rows -> In b rows -> Q a = true -> Q b = true ->
               threadId a = threadId b -> createdAt a = createdAt b) ->
  NoDup (map threadId (List.filter Q rows)).
Proof.
  intros N J. induction rows as [|x r IH]; simpl; [constructor|].
  inversion N as [|? ? Hx Hr]; subst.
  assert (IH' : NoDup (map threadId (List.filter Q r))).
  { apply IH; auto. intros a b Ha Hb. apply J; now right. }
  destruct (Q x) eqn:Qx; [|exact IH'].
  simpl. constructor; [|exact IH'].
  intros Hin. apply in_map_iff in Hin. destruct Hin as [b [Et Hb]].
  apply filter_In in Hb. destruct Hb as [Hb Qb].
  apply Hx. assert (Ec : createdAt b = createdAt x).
  { apply J; auto. now right. now left. }
  rewrite <- Et, <- Ec. now apply (in_map (fun a => (threadId a, createdAt a))).
Qed.

(** X5. When no two rows of the table share both thread id and creation time,
    the threaded query returns rows that match the conditions, at most one
    for each thread. *)
Theorem fetchThreadedEmails_without_ties (cs : list SQL) (rows : list Email) :
  NoDup (map (fun a => (threadId a, createdAt a)) rows) ->
  (forall e, In e (fetchThreadedEmails cs rows) -> Sql.and cs e = true)
  /\ NoDup (map threadId (fetchThreadedEmails cs rows)).
Proof.
  intros N.
  assert (K : forall a b, In a rows -> In b rows ->
              threadId a = threadId b -> createdAt a = createdAt b -> a = b).
  { clear cs. induction rows as [|x r IH]; simpl; intros a b Ha Hb Et Ec; [contradiction|].
    inversion N as [|? ? Hx Hr]; subst.
    destruct Ha as [<-|Ha], Hb as [<-|Hb]; auto.
    - exfalso. apply Hx. rewrite Et, Ec.
      now apply (in_map (fun a => (threadId a, createdAt a))).
    - exfalso. apply Hx. rewrite <- Et, <- Ec.
      now apply (in_map (fun a => (threadId a, createdAt a))). }
  split.
  - intros e H. destruct (fetchThreadedEmails_latest cs rows e H) as [He [[a [Ha [Hc [Et Ec]]]] _]].
    now rewrite <- (K a e Ha He Et Ec).
  - apply (Permutation_NoDup (l := map threadId (map fst (innerJoin rows (latest cs rows))))).
    { apply Permutation_map. unfold fetchThreadedEmails. apply Permutation_map, orderBy_perm. }
    rewrite (innerJoin_rows rows (latest cs rows) (latest_NoDup cs rows)).
    assert (J : forall a b, In a rows -> In b rows ->
                existsb (joins a) (latest cs rows) = true ->
                existsb (joins b) (latest cs rows) = true ->
                threadId a = threadId b -> createdAt a = createdAt b).
    { intros a b Ha Hb Ja Jb Et.
      assert (Fa : In a (fetchThreadedEmails cs rows)).
      { apply fetchThreadedEmails_In. split; [exact Ha | now apply existsb_exists]. }
      assert (Fb : In b (fetchThreadedEmails cs rows)).
      { apply fetchThreadedEmails_In. split; [exact Hb | now apply existsb_exists]. }
      destruct (fetchThreadedEmails_latest cs rows a Fa) as [_ [[a' [Ha' [Ca [Ta Ea]]]] La]].
      destruct (fetchThreadedEmails_latest cs rows b Fb) as [_ [[b' [Hb' [Cb [Tb Eb]]]] Lb]].
      assert (createdAt b' <= createdAt a) by (apply La; congruence).
      assert (createdAt a' <= createdAt b) by (apply Lb; congruence).
      lia. }
    now apply NoDup_threads.
Qed.

Lemma fetchThreadedEmails_without_ties_witness :
  NoDup (map threadId
           (fetchThreadedEmails [getFilterCondition (Some EmailFilter.inbox)]
                                [tie_kept; starred])).
Proof.
  apply (fetchThreadedEmails_without_ties
           [getFilterCondition (Some EmailFilter.inbox)] [tie_kept; starred]).
  vm_compute. repeat constructor; simpl; intuition discriminate.
Defined.

(** *** Threaded query on rows that share a creation time *)

(** C1 (fails on the code). The claim: under every filter, search and
    threaded flag each returned row satisfies the filter's predicate, and
    only trash returns deleted rows. With [threaded = true] the join back to
    [emails] is on thread id and creation time alone, so a row in the trash
    that shares both with the latest inbox row of its thread is returned
    under the inbox filter. *)
Theorem fetchEmails_threaded_inbox_returns_trashed :
  fetchEmails (mkParams (Some EmailFilter.inbox) None true) [tie_kept; tie_trashed]
  = [tie_kept; tie_trashed]
  /\ tablePredicate EmailFilter.inbox tie_trashed = false
  /\ isDeleted tie_trashed = true.
Proof. vm_compute. repeat split. Qed.

(** C2 (fails on the code). The claim: the threaded list query returns at
    most one row per thread id. Two rows of one thread that match the filter
    and share the maximal creation time are both returned. *)
Theorem fetchEmails_threaded_returns_thread_twice :
  fetchEmails (mkParams (Some EmailFilter.inbox) None true) [tie_kept; tie_sibling]
  = [tie_kept; tie_sibling]
  /\ threadId tie_kept = threadId tie_sibling
  /\ tie_kept <> tie_sibling.
Proof. vm_compute. repeat split. discriminate. Qed.

(** ** Stats maintainer *)

Lemma recalculateStats_fst (env : Env) (db : DB) :
  fst (recalculateStats env db) = aggregate (emails db).
Proof. reflexivity. Qed.

Lemma recalculateStats_emails (env : Env) (db : DB) :
  emails (snd (recalculateStats env db)) = emails db.
Proof. reflexivity. Qed.

Lemma recalculateStats_seq (env : Env) (db : DB) :
  emails_seq (snd (recalculateStats env db)) = emails_seq db.
Proof. reflexivity. Qed.

(** After a recalculation the row with id [STATS_ROW_ID] exists, and every
    such row holds the recalculated counters and the time of the call. *)
Lemma recalculateStats_row (env : Env) (db : DB) :
  let db' := snd (recalculateStats env db) in
  Exists (fun r => stats_id r = STATS_ROW_ID) (emailStats db')
  /\ Forall (fun r => stats_id r = STATS_ROW_ID ->
                      holds (aggregate (emails db)) r /\ stats_updatedAt r = now env)
            (emailStats db').
Proof.
  unfold recalculateStats, bind, ret, Db.select, Db.upsertStats. simpl.
  set (s := aggregate (emails db)).
  destruct (existsb (fun r => stats_id r =? STATS_ROW_ID) (emailStats db)) eqn:E.
  - split.
    + apply existsb_exists in E. destruct E as [r [Hin Hr]].
      apply Exists_exists. eexists. split.
      * apply in_map_iff. exists r. split; [reflexivity | exact Hin].
      * rewrite Hr. simpl. now apply Z.eqb_eq.
    + apply Forall_forall. intros r' Hin Hid.
      apply in_map_iff in Hin. destruct Hin as [r [<- _]].
      destruct (stats_id r =? STATS_ROW_ID) eqn:Hr.
      * unfold holds. simpl. repeat split.
      * simpl in Hid. apply Z.eqb_neq in Hr. contradiction.
  - split.
    + apply Exists_exists. eexists. split.
      * apply in_or_app. right. left. reflexivity.
      * reflexivity.
    + apply Forall_forall. intros r Hin Hid.
      apply in_app_or in Hin. destruct Hin as [Hin|[<-|[]]].
      * exfalso. assert (F : existsb (fun r => stats_id r =? STATS_ROW_ID) (emailStats db) = true).
        { apply existsb_exists. exists r. split; [exact Hin | now apply Z.eqb_eq]. }
        congruence.
      * unfold holds. simpl. repeat split.
Qed.

Lemma select_where_ext (c c' : SQL) (rows : list Email) :
  (forall e, c e = c' e) -> Sql.select_where c rows = Sql.select_where c' rows.
Proof. intros H. now apply filter_ext. Qed.

(** C3 (amended). For every state of the email table, [recalculateStats]
    returns counters that are COUNTs over the email table: total, important,
    sent and deleted with the predicates of the filter table (inbox,
    important, sent, trash), and unread with the table's unread predicate
    further restricted to incoming mail. It leaves the email table as it is
    and persists total, unread, important and sent, with the time of the
    call, in the stats row; the deleted count is returned but has no column
    to be stored in. *)
Theorem recalculateStats_counts (env : Env) (db : DB) :
  let stats := fst (recalculateStats env db) in
  let db' := snd (recalculateStats env db) in
  total stats = Sql.COUNT (List.filter (tablePredicate EmailFilter.inbox) (emails db))
  /\ unread stats =
     Sql.COUNT (List.filter
                  (fun e => EmailDirection_eqb (direction e) INCOMING
                            && tablePredicate EmailFilter.unread e) (emails db))
  /\ important stats = Sql.COUNT (List.filter (tablePredicate EmailFilter.important) (emails db))
  /\ sent stats = Sql.COUNT (List.filter (tablePredicate EmailFilter.sent) (emails db))
  /\ deleted stats = Sql.COUNT (List.filter (tablePredicate EmailFilter.trash) (emails db))
  /\ emails db' = emails db
  /\ Exists (fun r => stats_id r = STATS_ROW_ID) (emailStats db')
  /\ Forall (fun r => stats_id r = STATS_ROW_ID ->
                      holds stats r /\ stats_updatedAt r = now env) (emailStats db').
Proof.
  intros stats db'. subst stats db'. rewrite recalculateStats_fst.
  assert (X : forall c c', (forall e, c e = c' e) ->
              Sql.COUNT (Sql.select_where c (emails db)) = Sql.COUNT (List.filter c' (emails db))).
  { intros c c' H. now rewrite (select_where_ext c c'). }
  unfold aggregate. simpl.
  repeat split; try (apply X; intros e; unfold Sql.and, Sql.eq_bool, Sql.eq_direction; simpl;
    destruct (isDeleted e), (isRead e), (isImportant e), (direction e); reflexivity).
  - apply recalculateStats_row.
  - apply recalculateStats_row.
Qed.

(** C3 (as stated, fails). The unread counter is not the COUNT of the
    table's unread predicate: an outgoing unread message is left out. *)
Lemma recalculateStats_unread_not_table :
  let db := mkDB [unread_outgoing] 1 [] in
  unread (fst (recalculateStats (mkEnv 300 `"thread-x") db))
  <> Sql.COUNT (List.filter (tablePredicate EmailFilter.unread) (emails db)).
Proof. vm_compute. discriminate. Qed.

(** ** Reading the cached stats *)

(** C4. [getStats] reads the cached stats row. When the row is absent it
    is a full recalculation. When the row is there, the store is left as it
    is and the snapshot takes total, unread, important and sent from the row
    and has 0 for deleted, whatever the email table holds: read back right
    after a recalculation, the deleted counter is 0 even when the
    recalculation counted deleted rows. *)
Theorem getStats_cached (env : Env) (db : DB) :
  (cachedRow db = None -> getStats env db = recalculateStats env db)
  /\ (forall row, cachedRow db = Some row ->
        getStats env db =
        ({| total := inboxEmailCount row; unread := unreadEmailCount row;
            important := importantEmailCount row; deleted := 0;
            sent := sentEmailCount row |}, db))
  /\ deleted (fst (getStats env (snd (recalculateStats env db)))) = 0
  /\ ((exists e, In e (emails db) /\ isDeleted e = true) ->
      deleted (fst (getStats env (snd (recalculateStats env db))))
      <> deleted (fst (recalculateStats env db))).
Proof.
  assert (A : forall d row, cachedRow d = Some row ->
            getStats env d =
            ({| total := inboxEmailCount row; unread := unreadEmailCount row;
                important := importantEmailCount row; deleted := 0;
                sent := sentEmailCount row |}, d)).
  { intros d row H. unfold getStats, bind, Db.selectStats, cachedRow in *.
    destruct (List.filter _ (emailStats d)) as [|r rs]; [discriminate|].
    simpl in H. injection H as ->. reflexivity. }
  assert (B : deleted (fst (getStats env (snd (recalculateStats env db)))) = 0).
  { destruct (cachedRow (snd (recalculateStats env db))) as [row|] eqn:E.
    - now rewrite (A _ row E).
    - exfalso. destruct (recalculateStats_row env db) as [Hex _].
      apply Exists_exists in Hex. destruct Hex as [r [Hin Hid]].
      unfold cachedRow in E.
      assert (F : In r (List.filter (fun r => stats_id r =? STATS_ROW_ID)
                                    (emailStats (snd (recalculateStats env db))))).
      { apply filter_In. split; [exact Hin | now apply Z.eqb_eq]. }
      destruct (List.filter _ _); [destruct F | discriminate]. }
  split; [|split; [exact (A db)|split; [exact B|]]].
  - intros H. unfold getStats, bind, Db.selectStats, cachedRow in *.
    destruct (List.filter _ (emailStats db)); [reflexivity | discriminate].
  - intros [e [Hin Hd]]. rewrite B, recalculateStats_fst. simpl.
    unfold Sql.COUNT, Sql.select_where.
    assert (F : In e (List.filter (Sql.eq_bool isDeleted true) (emails db))).
    { apply filter_In. split; [exact Hin|]. unfold Sql.eq_bool. now rewrite Hd. }
    destruct (List.filter _ _); [destruct F | simpl; lia].
Qed.

Lemma getStats_cached_witness :
  let env := mkEnv 300 `"thread-x" in
  let db := mkDB [tie_trashed] 2 [] in
  getStats env db = recalculateStats env db
  /\ deleted (fst (getStats env (snd (recalculateStats env db)))) = 0
  /\ deleted (fst (recalculateStats env db)) = 1.
Proof.
  intros env db.
  destruct (getStats_cached env db) as [H [_ [Z _]]].
  split; [apply H; reflexivity | split; [exact Z | reflexivity]].
Defined.

(** ** Fetching a thread *)

Lemma getThreadFilterCondition_selection (thread : str) (filter : option EmailFilter.t) (e : Email) :
  ThreadRoute.getThreadFilterCondition thread filter e = threadSelection thread filter e.
Proof.
  unfold ThreadRoute.getThreadFilterCondition, threadSelection.
  destruct filter as [[]|]; unfold Sql.and, Sql.eq_str, Sql.eq_bool; simpl;
    destruct (Str.eqb (threadId e) thread), (isDeleted e), (isImportant e); reflexivity.
Qed.

(** C5 (amended). For every non-empty thread id and every filter, the
    fetch-thread operation leaves the store as it is and returns, oldest
    first, exactly the rows of that thread selected by: deleted = true under
    trash; important = true and deleted = false under important; deleted =
    false alone under inbox, unread, sent or no filter. The count is the
    number of rows returned. *)
Theorem GET_thread_selection (thread : str) (filter : option str) (db : DB) :
  Str.truthy thread = true ->
  exists rows,
    ThreadRoute.GET thread filter db = (successResponse (Emails rows (Z.of_nat (List.length rows))) 200, db)
    /\ Permutation rows
         (List.filter (threadSelection thread (EmailFilter.ofParam (truthyStr filter))) (emails db))
    /\ Sorted (fun a b => createdAt a <= createdAt b) rows.
Proof.
  intros T. unfold ThreadRoute.GET. rewrite T. simpl.
  unfold bind, Db.select, ret. eexists. split; [reflexivity|]. split.
  - rewrite <- orderBy_perm. unfold Sql.select_where.
    erewrite filter_ext; [reflexivity|].
    intros e. apply getThreadFilterCondition_selection.
  - apply Sorted_weaken with (R := fun a b => Sql.asc createdAt a b = true).
    + intros a b. unfold Sql.asc. apply Z.leb_le.
    + apply orderBy_Sorted, asc_total.
Qed.

Lemma GET_thread_selection_witness :
  exists rows,
    ThreadRoute.GET `"t1" (Some `"inbox") (mkDB [reply_sent; tie_kept] 4 [])
    = (successResponse (Emails rows (Z.of_nat (List.length rows))) 200, mkDB [reply_sent; tie_kept] 4 [])
    /\ Permutation rows
         (List.filter (threadSelection `"t1" (EmailFilter.ofParam (truthyStr (Some `"inbox"))))
                      (emails (mkDB [reply_sent; tie_kept] 4 [])))
    /\ Sorted (fun a b => createdAt a <= createdAt b) rows.
Proof.
  apply (GET_thread_selection `"t1" (Some `"inbox") (mkDB [reply_sent; tie_kept] 4 [])).
  reflexivity.
Defined.

(** C5 (as stated, fails). Under the inbox filter the thread route does
    not return exactly the rows of the thread that satisfy the table's inbox
    predicate: it returns an outgoing row as well. *)
Lemma GET_thread_inbox_not_table :
  let db := mkDB [reply_sent; tie_kept] 4 [] in
  ~ exists rows count,
      ThreadRoute.GET `"t1" (Some `"inbox") db = (successResponse (Emails rows count) 200, db)
      /\ Permutation rows
           (List.filter (fun e => Str.eqb (threadId e) `"t1" && tablePredicate EmailFilter.inbox e)
                        (emails db)).
Proof.
  intros db [rows [count [H P]]].
  vm_compute in H. injection H as <- _.
  apply Permutation_length in P. vm_compute in P. discriminate.
Qed.

(** ** Mutation handlers *)

Lemma Forall2_map_self {A : Type} (R : A -> A -> Prop) (f : A -> A) (l : list A) :
  (forall x, In x l -> R x (f x)) -> Forall2 R l (map f l).
Proof.
  induction l as [|x r IH]; simpl; intros H; constructor.
  - apply H. now left.
  - apply IH. intros y Hy. apply H. now right.
Qed.

(** The email table PATCH leaves behind, whatever its response. *)
Lemma PATCH_emails (env : Env) (body : UpdateEmailRequest.t) (db : DB) :
  emails (snd (PATCH env body db)) =
  match patchCondition body with
  | Some c => map (fun e => if c e then updateData env body e else e) (emails db)
  | None => emails db
  end.
Proof.
  unfold PATCH. destruct (patchCondition body) as [c|]; [|reflexivity].
  unfold bind, Db.update. simpl.
  destruct (map (updateData env body) (Sql.select_where c (emails db))); reflexivity.
Qed.

(** The email table DELETE leaves behind, whatever its response. *)
Lemma DELETE_emails (env : Env) (p : DeleteParams.t) (db : DB) :
  emails (snd (DELETE env p db)) =
  match deleteCondition p with
  | inr c => map (fun e => if c e then softDelete env e else e) (emails db)
  | inl _ => emails db
  end.
Proof.
  unfold DELETE. destruct (deleteCondition p) as [m|c]; [reflexivity|].
  unfold bind, Db.update. simpl.
  destruct (map (softDelete env) (Sql.select_where c (emails db))); reflexivity.
Qed.

(** The rows a thread-addressed DELETE selects. *)
Lemma deleteCondition_thread (p : DeleteParams.t) (thread : str) :
  truthyStr (DeleteParams.threadId p) = Some thread ->
  exists c, deleteCondition p = inr c
    /\ forall e, c e = Str.eqb (threadId e) thread && negb (isDeleted e)
                 && match DeleteParams.filter p with
                    | Some f => if Str.eqb f `"important" then isImportant e else true
                    | None => true
                    end.
Proof.
  intros T. unfold deleteCondition. rewrite T. eexists. split; [reflexivity|].
  intros e. destruct (DeleteParams.filter p) as [f|]; [destruct (Str.eqb f `"important")|];
    unfold Sql.and, Sql.eq_str, Sql.eq_bool; simpl;
    destruct (Str.eqb (threadId e) thread), (isDeleted e), (isImportant e); reflexivity.
Qed.

(** C6. A soft-delete addressed by thread id with [filter=important] sets
    [deleted] on exactly the rows of the thread that are important and not
    yet deleted; every other row of the table, so every other row of the
    thread, stays as it was. *)
Theorem DELETE_thread_important (env : Env) (p : DeleteParams.t) (db : DB) (thread : str) :
  truthyStr (DeleteParams.threadId p) = Some thread ->
  DeleteParams.filter p = Some `"important" ->
  Forall2 (fun e e' =>
             if Str.eqb (threadId e) thread && isImportant e && negb (isDeleted e)
             then e' = softDelete env e /\ isDeleted e' = true
             else e' = e)
          (emails db) (emails (snd (DELETE env p db))).
Proof.
  intros T F. rewrite DELETE_emails.
  destruct (deleteCondition_thread p thread T) as [c [-> Hc]].
  apply Forall2_map_self. intros e _. rewrite Hc, F. simpl.
  destruct (Str.eqb (threadId e) thread), (isImportant e), (isDeleted e); simpl; auto.
Qed.

Lemma DELETE_thread_important_witness :
  let env := mkEnv 300 `"thread-x" in
  let p := DeleteParams.mk None (Some `"t1") (Some `"important") in
  let db := mkDB [tie_kept; tie_trashed; starred] 5 [] in
  Forall2 (fun e e' =>
             if Str.eqb (threadId e) `"t1" && isImportant e && negb (isDeleted e)
             then e' = softDelete env e /\ isDeleted e' = true
             else e' = e)
          (emails db) (emails (snd (DELETE env p db))).
Proof.
  intros env p db.
  apply (DELETE_thread_important env p db `"t1"); reflexivity.
Defined.

Lemma nonBlank_isBlank (x : option str) : isBlank x = true -> nonBlank x = None.
Proof.
  intros H. apply nonBlank_None. destruct x as [s|]; [right; now exists s | now left].
Qed.

(** C7. A create request whose subject or recipient is blank is answered
    with a 400 and leaves the whole store, the email table included, as it
    was. *)
Theorem POST_blank_rejected (env : Env) (body : CreateEmailRequest.t) (db : DB) :
  isBlank (CreateEmailRequest.subject body) = true
  \/ isBlank (CreateEmailRequest.to body) = true ->
  exists error, POST env body db = (errorResponse error 400, db).
Proof.
  intros H. unfold POST.
  destruct (nonBlank (CreateEmailRequest.subject body)) as [s|] eqn:S.
  - destruct H as [H|H].
    + apply nonBlank_isBlank in H. congruence.
    + apply nonBlank_isBlank in H. rewrite H. now eexists.
  - now eexists.
Qed.

Lemma POST_blank_rejected_witness :
  let env := mkEnv 300 `"thread-x" in
  let body := CreateEmailRequest.mk (Some `"Hi") (Some [32; 9; 160]%N) None None
                                    (Some `"hello") None None in
  let db := mkDB [tie_kept] 1 [] in
  exists error, POST env body db = (errorResponse error 400, db).
Proof.
  intros env body db.
  apply (POST_blank_rejected env body db). right. reflexivity.
Defined.

(** C8. PATCH, whatever it answers, keeps the email table row for row, and
    on every row keeps id, thread id, subject, sender, recipient, content,
    direction and creation time, and each of the three flags that the
    request does not carry; a row the request does not address is kept
    whole, and an addressed row takes the flags of the request and the time
    of the call as its update time. *)
Theorem PATCH_frame (env : Env) (body : UpdateEmailRequest.t) (db : DB) :
  Forall2 (fun e e' =>
             id e' = id e /\ threadId e' = threadId e /\ subject e' = subject e
             /\ from e' = from e /\ to e' = to e /\ content e' = content e
             /\ direction e' = direction e /\ createdAt e' = createdAt e
             /\ (UpdateEmailRequest.isRead body = None -> isRead e' = isRead e)
             /\ (UpdateEmailRequest.isImportant body = None -> isImportant e' = isImportant e)
             /\ (UpdateEmailRequest.isDeleted body = None -> isDeleted e' = isDeleted e)
             /\ (forall c, patchCondition body = Some c -> c e = false -> e' = e)
             /\ (forall c, patchCondition body = Some c -> c e = true ->
                           e' = updateData env body e))
          (emails db) (emails (snd (PATCH env body db))).
Proof.
  rewrite PATCH_emails. destruct (patchCondition body) as [c|].
  - apply Forall2_map_self. intros e _. destruct (c e) eqn:E.
    + unfold updateData. simpl. repeat split; try (intros ->; reflexivity).
      intros c' [= <-] E'. congruence.
    + repeat split; try reflexivity.
      intros c' [= <-] E'. congruence.
  - rewrite <- (map_id (emails db)) at 2.
    apply Forall2_map_self. intros e _. repeat split; try reflexivity; discriminate.
Qed.

(** The rows a thread-addressed PATCH selects. *)
Lemma patchCondition_thread (body : UpdateEmailRequest.t) (thread : str) :
  truthyStr (UpdateEmailRequest.threadId body) = Some thread ->
  patchCondition body = Some (Sql.eq_str threadId thread).
Proof. intros T. unfold patchCondition. now rewrite T. Qed.

(** C10. A PATCH addressed by thread id applies the update to every row of
    the thread, rows in the trash included: the row takes each flag the
    request carries, keeps each flag it does not carry, and is stamped with
    the time of the call. A DELETE addressed by the same thread id leaves
    the rows of the thread that are already in the trash untouched. *)
Theorem PATCH_thread_reaches_deleted
        (env : Env) (body : UpdateEmailRequest.t) (p : DeleteParams.t) (db : DB)
        (thread : str) (n : nat) (e : Email) :
  truthyStr (UpdateEmailRequest.threadId body) = Some thread ->
  truthyStr (DeleteParams.threadId p) = Some thread ->
  nth_error (emails db) n = Some e ->
  threadId e = thread ->
  (exists e',
     nth_error (emails (snd (PATCH env body db))) n = Some e'
     /\ e' = updateData env body e
     /\ isRead e' = match UpdateEmailRequest.isRead body with
                    | Some b => b | None => isRead e end
     /\ isImportant e' = match UpdateEmailRequest.isImportant body with
                         | Some b => b | None => isImportant e end
     /\ isDeleted e' = match UpdateEmailRequest.isDeleted body with
                       | Some b => b | None => isDeleted e end
     /\ updatedAt e' = now env
     /\ id e' = id e /\ threadId e' = threadId e /\ subject e' = subject e
     /\ from e' = from e /\ to e' = to e /\ content e' = content e
     /\ direction e' = direction e /\ createdAt e' = createdAt e)
  /\ (isDeleted e = true -> nth_error (emails (snd (DELETE env p db))) n = Some e).
Proof.
  intros TB TP N E. split.
  - exists (updateData env body e). split.
    + rewrite PATCH_emails, (patchCondition_thread body thread TB).
      rewrite nth_error_map, N. simpl. unfold Sql.eq_str.
      now rewrite E, Str_eqb_refl.
    + unfold updateData. cbn [isRead isImportant isDeleted updatedAt id threadId subject
                               from to content direction createdAt].
      repeat split; reflexivity.
  - intros D. rewrite DELETE_emails.
    destruct (deleteCondition_thread p thread TP) as [c [-> Hc]].
    rewrite nth_error_map, N. simpl. rewrite Hc, D.
    now rewrite andb_false_r.
Qed.

Lemma PATCH_thread_reaches_deleted_witness :
  let env := mkEnv 300 `"thread-x" in
  let body := UpdateEmailRequest.mk None (Some `"t1") (Some false) None None in
  let p := DeleteParams.mk None (Some `"t1") None in
  let db := mkDB [tie_kept; tie_trashed] 2 [] in
  (exists e',
     nth_error (emails (snd (PATCH env body db))) 1 = Some e'
     /\ isRead tie_trashed = true /\ isRead e' = false
     /\ isDeleted e' = true /\ updatedAt e' = 300)
  /\ nth_error (emails (snd (DELETE env p db))) 1 = Some tie_trashed.
Proof.
  intros env body p db.
  destruct (PATCH_thread_reaches_deleted env body p db `"t1" 1%nat tie_trashed
              eq_refl eq_refl eq_refl eq_refl)
    as [[e' [N [_ [R [_ [D [U _]]]]]]] K].
  split.
  - exists e'. repeat split; assumption.
  - apply K. reflexivity.
Defined.

(** ** Soft-delete and restore *)

(** No query reads [updatedAt]: a change of the table that only moves
    update times is carried through every query result. *)
Section UpdateTimeOnly.

Variable g : Email -> Email.
Hypothesis g_same : forall a, sameButUpdatedAt (g a) a.

Lemma g_threadId (a : Email) : threadId (g a) = threadId a.
Proof. exact (f_equal threadId (g_same a)). Qed.

Lemma g_createdAt (a : Email) : createdAt (g a) = createdAt a.
Proof. exact (f_equal createdAt (g_same a)). Qed.

Lemma blind_g (c : SQL) (a : Email) : blind c -> c (g a) = c a.
Proof.
  intros B. rewrite <- (B (g a) 0), <- (B a 0). now rewrite (g_same a).
Qed.

Lemma blind_and (cs : list SQL) : Forall blind cs -> blind (Sql.and cs).
Proof.
  intros H a t. unfold Sql.and. induction H as [|c cs Hc _ IH]; simpl; [reflexivity|].
  now rewrite Hc, IH.
Qed.

Lemma select_where_g (c : SQL) (rows : list Email) :
  blind c -> Sql.select_where c (map g rows) = map g (Sql.select_where c rows).
Proof.
  intros B. unfold Sql.select_where. induction rows as [|a r IH]; simpl; [reflexivity|].
  rewrite (blind_g c a B). destruct (c a); simpl; now rewrite IH.
Qed.

Lemma latest_g (cs : list SQL) (rows : list Email) :
  Forall blind cs -> latest cs (map g rows) = latest cs rows.
Proof.
  intros B. unfold latest. rewrite (select_where_g _ _ (blind_and cs B)).
  set (selected := Sql.select_where (Sql.and cs) rows).
  assert (T : map threadId (map g selected) = map threadId selected).
  { rewrite map_map. apply map_ext. exact g_threadId. }
  rewrite T. apply map_ext. intros t. f_equal. f_equal.
  change (List.filter (Sql.eq_str threadId t)) with (Sql.select_where (Sql.eq_str threadId t)).
  rewrite select_where_g; [|intros a u; reflexivity].
  rewrite map_map. apply map_ext. exact g_createdAt.
Qed.

Lemma innerJoin_g (rows : list Email) (sub : list Latest) :
  innerJoin (map g rows) sub = map (fun r => (g (fst r), snd r)) (innerJoin rows sub).
Proof.
  unfold innerJoin. induction rows as [|a r IH]; simpl; [reflexivity|].
  rewrite map_app, IH. f_equal.
  rewrite map_map. simpl.
  assert (J : forall l, joins (g a) l = joins a l).
  { intros l. unfold joins. now rewrite g_threadId, g_createdAt. }
  now rewrite (filter_ext _ _ J).
Qed.

Lemma fetchThreadedEmails_g (cs : list SQL) (rows : list Email) :
  Forall blind cs ->
  fetchThreadedEmails cs (map g rows) = map g (fetchThreadedEmails cs rows).
Proof.
  intros B. unfold fetchThreadedEmails. rewrite (latest_g cs rows B), innerJoin_g.
  rewrite (orderBy_map (fun r => (g (fst r), snd r))
             (fun r1 r2 => Sql.desc createdAt (fst r1) (fst r2))).
  - rewrite !map_map. reflexivity.
  - intros r1 r2. unfold Sql.desc. simpl. now rewrite !g_createdAt.
Qed.

Lemma conditionsOf_blind (params : EmailQueryParams) : Forall blind (conditionsOf params).
Proof.
  unfold conditionsOf. constructor.
  - destruct (q_filter params) as [[]|]; intros a t; reflexivity.
  - destruct (q_query params) as [q|]; [|constructor].
    destruct (Str.truthy q && Str.truthy (Str.trim q)); constructor; [|constructor].
    intros a t. reflexivity.
Qed.

Lemma fetchEmails_g (params : EmailQueryParams) (rows : list Email) :
  fetchEmails params (map g rows) = map g (fetchEmails params rows).
Proof.
  rewrite !fetchEmails_unfold. destruct (q_threaded params).
  - apply fetchThreadedEmails_g, conditionsOf_blind.
  - rewrite select_where_g by apply blind_and, conditionsOf_blind.
    apply orderBy_map. intros a b. unfold Sql.desc. now rewrite !g_createdAt.
Qed.

Lemma GET_thread_g (thread : str) (filter : option str) (db db' : DB) :
  emails db' = map g (emails db) ->
  fst (ThreadRoute.GET thread filter db') =
  match fst (ThreadRoute.GET thread filter db) with
  | successResponse (Emails rows count) status =>
      successResponse (Emails (map g rows) count) status
  | r => r
  end.
Proof.
  intros H. unfold ThreadRoute.GET. destruct (negb (Str.truthy thread)); [reflexivity|].
  unfold bind, Db.select, ret. simpl. rewrite H.
  rewrite select_where_g.
  - rewrite (orderBy_map g (Sql.asc createdAt) (Sql.asc createdAt)).
    + now rewrite length_map.
    + intros a b. unfold Sql.asc. now rewrite !g_createdAt.
  - destruct (EmailFilter.ofParam (truthyStr filter)) as [[]|]; intros a t; reflexivity.
Qed.

Lemma aggregate_g (rows : list Email) : aggregate (map g rows) = aggregate rows.
Proof.
  unfold aggregate, Sql.COUNT.
  rewrite !select_where_g, !length_map; try reflexivity;
    intros a t; reflexivity.
Qed.

End UpdateTimeOnly.

(** The primary key: two rows of a table with the same id are one row. *)
Lemma NoDup_id_inj (rows : list Email) (a b : Email) :
  NoDup (map id rows) -> In a rows -> In b rows -> id a = id b -> a = b.
Proof.
  induction rows as [|x r IH]; simpl; intros N Ha Hb E; [contradiction|].
  inversion N as [|? ? Hx Hr]; subst.
  destruct Ha as [<-|Ha], Hb as [<-|Hb]; auto.
  - exfalso. apply Hx. rewrite E. now apply in_map.
  - exfalso. apply Hx. rewrite <- E. now apply in_map.
Qed.

Lemma parseInt_truthy (s : str) (i : Z) : Str.parseInt s = Some i -> truthyStr (Some s) = Some s.
Proof.
  destruct s; [discriminate | reflexivity].
Qed.

(** C9 (amended). For every row of the table that is not deleted (ids being
    the primary key, assigned from 1), soft-deleting it by id and then
    restoring it by id both succeed and leave the email table as it was but
    for the update time of that row; every list query and thread query
    returns the rows it returned before, again but for that update time, and
    the recalculated counters are the ones of before. *)
Theorem softDelete_restore_roundtrip (env1 env2 : Env) (db : DB) (e : Email) (s : str) :
  In e (emails db) ->
  NoDup (map id (emails db)) ->
  isDeleted e = false ->
  id e <> 0 ->
  Str.parseInt s = Some (id e) ->
  let del := DELETE env1 (deleteById s) db in
  let res := PATCH env2 (restoreById (id e)) (snd del) in
  let g := fun a => if id a =? id e then touch (now env2) a else a in
  (exists message stats, fst del = successResponse (Message message stats) 200)
  /\ (exists email rows stats, fst res = successResponse (Updated email rows stats) 200)
  /\ emails (snd res) = map g (emails db)
  /\ Forall2 sameButUpdatedAt (emails (snd res)) (emails db)
  /\ (forall params,
        fetchEmails params (emails (snd res)) = map g (fetchEmails params (emails db)))
  /\ (forall thread filter,
        fst (ThreadRoute.GET thread filter (snd res)) =
        match fst (ThreadRoute.GET thread filter db) with
        | successResponse (Emails rows count) status =>
            successResponse (Emails (map g rows) count) status
        | r => r
        end)
  /\ (forall env, fst (recalculateStats env (snd res)) = fst (recalculateStats env db)).
Proof.
  intros Hin Hnd Hdel Hid Hs del res g.
  assert (G : forall a, sameButUpdatedAt (g a) a).
  { intros a. unfold g. destruct (id a =? id e); reflexivity. }
  assert (Cd : deleteCondition (deleteById s) = inr (Sql.eq_int id (id e))).
  { unfold deleteCondition, deleteById. simpl DeleteParams.threadId. simpl DeleteParams.id.
    rewrite (parseInt_truthy s (id e) Hs). simpl. now rewrite Hs. }
  assert (Cp : patchCondition (restoreById (id e)) = Some (Sql.eq_int id (id e))).
  { unfold patchCondition, restoreById. simpl.
    destruct (id e =? 0) eqn:Z0; [apply Z.eqb_eq in Z0; contradiction | reflexivity]. }
  assert (E1 : emails (snd del) =
               map (fun a => if id a =? id e then softDelete env1 a else a) (emails db)).
  { unfold del. now rewrite DELETE_emails, Cd. }
  assert (E2 : emails (snd res) = map g (emails db)).
  { unfold res. rewrite PATCH_emails, Cp, E1, map_map. apply map_ext_in.
    intros a Ha. unfold Sql.eq_int, g. destruct (id a =? id e) eqn:Ea.
    - simpl. rewrite Ea. apply Z.eqb_eq in Ea.
      assert (a = e) as -> by now apply (NoDup_id_inj (emails db)).
      unfold updateData, touch. simpl. now rewrite Hdel.
    - now rewrite Ea. }
  assert (S1 : Sql.select_where (Sql.eq_int id (id e)) (emails db) <> []).
  { intros F. assert (X : In e (Sql.select_where (Sql.eq_int id (id e)) (emails db))).
    { apply filter_In. split; [exact Hin | apply Z.eqb_refl]. }
    rewrite F in X. destruct X. }
  assert (S2 : Sql.select_where (Sql.eq_int id (id e)) (emails (snd del)) <> []).
  { intros F. assert (X : In (softDelete env1 e)
                             (Sql.select_where (Sql.eq_int id (id e)) (emails (snd del)))).
    { apply filter_In. split.
      - rewrite E1. apply in_map_iff. exists e. now rewrite Z.eqb_refl.
      - apply Z.eqb_refl. }
    rewrite F in X. destruct X. }
  split; [|split; [|split; [exact E2|split; [|split; [|split]]]]].
  - unfold del, DELETE. rewrite Cd. unfold bind, Db.update. simpl.
    destruct (Sql.select_where (Sql.eq_int id (id e)) (emails db)); [congruence|].
    simpl. eauto.
  - unfold res, PATCH. rewrite Cp. unfold bind, Db.update. simpl.
    destruct (Sql.select_where (Sql.eq_int id (id e)) (emails (snd del))); [congruence|].
    simpl. eauto.
  - rewrite E2. rewrite <- (map_id (emails db)) at 2.
    generalize (emails db) as l. induction l; simpl; constructor; auto.
  - intros params. rewrite E2. now apply fetchEmails_g.
  - intros thread filter. now apply GET_thread_g.
  - intros env. rewrite !recalculateStats_fst, E2. now apply aggregate_g.
Qed.

Lemma softDelete_restore_roundtrip_witness :
  let env1 := mkEnv 300 `"thread-x" in
  let env2 := mkEnv 400 `"thread-y" in
  let db := mkDB [tie_kept; reply_sent] 4 [] in
  emails (snd (PATCH env2 (restoreById 1) (snd (DELETE env1 (deleteById `"1") db))))
  = [touch 400 tie_kept; reply_sent].
Proof.
  intros env1 env2 db.
  refine (proj1 (proj2 (proj2
    (softDelete_restore_roundtrip env1 env2 db tie_kept `"1" _ _ _ _ _)))).
  - now left.
  - vm_compute. repeat constructor; simpl; intuition discriminate.
  - reflexivity.
  - discriminate.
  - reflexivity.
Defined.

(** C9 (as stated, fails). A row that is already in the trash can be
    soft-deleted again; restoring it then takes it out of the trash, so the
    email table is not the one of before. *)
Lemma softDelete_restore_of_trashed :
  let env1 := mkEnv 300 `"thread-x" in
  let env2 := mkEnv 400 `"thread-y" in
  let db := mkDB [tie_trashed] 2 [] in
  let db' := snd (PATCH env2 (restoreById 2) (snd (DELETE env1 (deleteById `"2") db))) in
  ~ Forall2 sameButUpdatedAt (emails db') (emails db).
Proof.
  intros env1 env2 db db' H. vm_compute in H.
  inversion H as [|? ? ? ? E _]; subst. discriminate E.
Qed.

(** ** Stats after a mutation *)

Lemma PATCH_unfold (env : Env) (body : UpdateEmailRequest.t) (db : DB) (c : SQL) :
  patchCondition body = Some c ->
  PATCH env body db =
  let d := snd (Db.update (updateData env body) c db) in
  match fst (Db.update (updateData env body) c db) with
  | [] => (errorResponse `"Email(s) not found" 404, d)
  | email :: rows =>
      (successResponse (Updated email (email :: rows) (fst (recalculateStats env d))) 200,
       snd (recalculateStats env d))
  end.
Proof.
  intros C. unfold PATCH. rewrite C. unfold bind.
  destruct (Db.update (updateData env body) c db) as [[|email rows] d]; reflexivity.
Qed.

Lemma DELETE_unfold (env : Env) (p : DeleteParams.t) (db : DB) (c : SQL) :
  deleteCondition p = inr c ->
  exists message,
    DELETE env p db =
    let d := snd (Db.update (softDelete env) c db) in
    match fst (Db.update (softDelete env) c db) with
    | [] => (errorResponse `"Email(s) not found" 404, d)
    | _ :: _ =>
        (successResponse (Message message (fst (recalculateStats env d))) 200,
         snd (recalculateStats env d))
    end.
Proof.
  intros C. unfold DELETE. rewrite C. unfold bind. eexists.
  destruct (Db.update (softDelete env) c db) as [[|email rows] d]; reflexivity.
Qed.

Lemma recalculateStats_holds (env : Env) (d : DB) :
  Exists (fun r => stats_id r = STATS_ROW_ID /\
                   holds (aggregate (emails (snd (recalculateStats env d)))) r)
         (emailStats (snd (recalculateStats env d))).
Proof.
  rewrite recalculateStats_emails.
  destruct (recalculateStats_row env d) as [Hex Hall].
  apply Exists_exists in Hex. destruct Hex as [r [Hin Hid]].
  apply Exists_exists. exists r. split; [exact Hin|]. split; [exact Hid|].
  rewrite Forall_forall in Hall. now apply Hall.
Qed.

(** X17. A mutation that succeeds leaves the stats row in step with the email
    table it leaves, and PATCH and DELETE answer with those counters. *)
Theorem mutation_refreshes_stats (env : Env) (db : DB) :
  (forall body email,
     fst (POST env body db) = successResponse (Created email) 201 ->
     Exists (fun r => stats_id r = STATS_ROW_ID /\
                      holds (aggregate (emails (snd (POST env body db)))) r)
            (emailStats (snd (POST env body db))))
  /\ (forall body email rows stats,
        fst (PATCH env body db) = successResponse (Updated email rows stats) 200 ->
        stats = aggregate (emails (snd (PATCH env body db)))
        /\ Exists (fun r => stats_id r = STATS_ROW_ID /\ holds stats r)
                  (emailStats (snd (PATCH env body db))))
  /\ (forall p message stats,
        fst (DELETE env p db) = successResponse (Message message stats) 200 ->
        stats = aggregate (emails (snd (DELETE env p db)))
        /\ Exists (fun r => stats_id r = STATS_ROW_ID /\ holds stats r)
                  (emailStats (snd (DELETE env p db)))).
Proof.
  split; [|split].
  - intros body email. unfold POST.
    destruct (nonBlank (CreateEmailRequest.subject body)); [|discriminate].
    destruct (nonBlank (CreateEmailRequest.to body)); [|discriminate].
    intros _. unfold bind, Db.insert, invalidateStats, bind, ret.
    match goal with |- context [recalculateStats env ?d] =>
      exact (recalculateStats_holds env d) end.
  - intros body email rows stats.
    destruct (patchCondition body) as [c|] eqn:C; [|unfold PATCH; rewrite C; discriminate].
    rewrite (PATCH_unfold env body db c C). cbv zeta.
    destruct (fst (Db.update (updateData env body) c db)); [discriminate|].
    cbn [fst snd]. intros [= _ _ <-]. split.
    + reflexivity.
    + match goal with |- context [recalculateStats env ?d] =>
        exact (recalculateStats_holds env d) end.
  - intros p message stats.
    destruct (deleteCondition p) as [m|c] eqn:C; [unfold DELETE; rewrite C; discriminate|].
    destruct (DELETE_unfold env p db c C) as [message' ->]. cbv zeta.
    destruct (fst (Db.update (softDelete env) c db)); [discriminate|].
    cbn [fst snd]. intros [= _ <-]. split.
    + reflexivity.
    + match goal with |- context [recalculateStats env ?d] =>
        exact (recalculateStats_holds env d) end.
Qed.

Lemma mutation_refreshes_stats_witness :
  let env := mkEnv 300 `"thread-x" in
  let db := mkDB [tie_kept; starred] 5 [] in
  mkEmailStats 1 0 0 1 0 = aggregate (emails (snd (DELETE env (deleteById `"5") db))).
Proof.
  intros env db.
  exact (proj1 (proj2 (proj2 (mutation_refreshes_stats env db))
                  (deleteById `"5") `"Email moved to trash" (mkEmailStats 1 0 0 1 0)
                  eq_refl)).
Defined.

(** ** Scenarios *)

(** Creating [{subject: "Hi", to: "a@b.com", content: "hello"}] answers 201
    with an outgoing, read message, which the sent filter then lists. *)
Example scenario_create :
  let env := mkEnv 100 `"thread-x" in
  let db := mkDB [tie_kept] 1 [] in
  exists email,
    fst (POST env hi db) = successResponse (Created (Some email)) 201
    /\ direction email = OUTGOING /\ isRead email = true
    /\ threadId email = `"thread-x"
    /\ fst (GET (Some `"sent") None None (snd (POST env hi db)))
       = successResponse (Emails [email] 1) 200.
Proof. vm_compute. eexists. repeat split. Qed.

(** Two messages of thread [t1] created at different times: the threaded
    list has the later one only, the thread has both, oldest first. *)
Example scenario_thread :
  let db := mkDB [starred; tie_kept] 5 [] in
  fst (GET None None (Some `"true") db) = successResponse (Emails [starred] 1) 200
  /\ fst (ThreadRoute.GET `"t1" None db) = successResponse (Emails [tie_kept; starred] 2) 200.
Proof. vm_compute. split; reflexivity. Qed.

(** [PATCH {id: 5, isRead: true}] when no row has id 5 answers 404 and
    changes no row. *)
Example scenario_patch_missing :
  let env := mkEnv 100 `"thread-x" in
  let db := mkDB [tie_kept] 1 [] in
  let body := UpdateEmailRequest.mk (Some 5) None (Some true) None None in
  fst (PATCH env body db) = errorResponse `"Email(s) not found" 404
  /\ emails (snd (PATCH env body db)) = emails db.
Proof. vm_compute. split; reflexivity. Qed.

(** Two messages created in one thread within one second, one of them then
    moved to the trash: the threaded inbox lists both. *)
Example scenario_tie :
  let db := snd (DELETE (mkEnv 200 `"thread-x") (deleteById `"2") two_received) in
  exists a b,
    fst (GET (Some `"inbox") None (Some `"true") db) = successResponse (Emails [a; b] 2) 200
    /\ threadId a = threadId b /\ isDeleted a = false /\ isDeleted b = true.
Proof. vm_compute. do 2 eexists. repeat split. Qed.

(** ** More on the list query *)

Lemma Sorted_map {A B : Type} (f : A -> B) (R : A -> A -> Prop) (R' : B -> B -> Prop)
      (l : list A) :
  (forall a b, R a b -> R' (f a) (f b)) -> Sorted R l -> Sorted R' (map f l).
Proof.
  intros H. induction 1 as [|a l Hl IH Hd]; simpl; constructor; [exact IH|].
  destruct Hd; simpl; constructor. now apply H.
Qed.

(** X3. Whatever the parameters, the list query answers with rows of the table,
    newest first. *)
Theorem fetchEmails_newest_first (params : EmailQueryParams) (rows : list Email) :
  Sorted (fun a b => createdAt b <= createdAt a) (fetchEmails params rows)
  /\ forall e, In e (fetchEmails params rows) -> In e rows.
Proof.
  rewrite fetchEmails_unfold. destruct (q_threaded params); split.
  - unfold fetchThreadedEmails.
    apply Sorted_map with
      (R := fun r1 r2 : Email * Latest => Sql.desc createdAt (fst r1) (fst r2) = true).
    + intros a b. unfold Sql.desc. apply Z.leb_le.
    + apply orderBy_Sorted. intros a b. apply desc_total.
  - intros e H. now apply fetchThreadedEmails_In in H.
  - apply Sorted_weaken with (R := fun a b => Sql.desc createdAt a b = true).
    + intros a b. unfold Sql.desc. apply Z.leb_le.
    + apply orderBy_Sorted, desc_total.
  - intros e H. apply orderBy_In, filter_In in H. tauto.
Qed.

(** Every thread that has a row matching the conditions is represented in
    the threaded result by a matching row of that thread with the latest
    creation time among the matches. *)
Theorem fetchThreadedEmails_covers (cs : list SQL) (rows : list Email) (a : Email) :
  In a rows -> Sql.and cs a = true ->
  exists e, In e (fetchThreadedEmails cs rows)
            /\ Sql.and cs e = true
            /\ threadId e = threadId a
            /\ createdAt a <= createdAt e.
Proof.
  intros Ha Hc.
  set (selected := Sql.select_where (Sql.and cs) rows).
  set (group := List.filter (Sql.eq_str threadId (threadId a)) selected).
  assert (Hg : In a group).
  { apply filter_In. split; [apply filter_In; tauto | apply Str_eqb_refl]. }
  destruct (MAX_nonempty (map createdAt group)) as [m Hm].
  { intros E. apply (in_map createdAt) in Hg. rewrite E in Hg. destruct Hg. }
  destruct (MAX_spec _ _ Hm) as [Hin Hle].
  apply in_map_iff in Hin. destruct Hin as [e [Ec He]].
  apply filter_In in He. destruct He as [He Et]. apply filter_In in He. destruct He as [He Hce].
  apply Str_eqb_eq in Et.
  exists e. split; [|split; [exact Hce|split; [exact Et|]]].
  - apply fetchThreadedEmails_In. split; [exact He|].
    exists (mkLatest (threadId a) (Some m)). split.
    + apply latest_In. simpl. split; [exists a; tauto | symmetry; exact Hm].
    + unfold joins. simpl. rewrite Et, Str_eqb_refl, Ec. simpl. apply Z.eqb_refl.
  - rewrite Ec. apply Hle. now apply in_map.
Qed.

(** X6. A search query that is blank is no search at all. *)
Theorem fetchEmails_blank_query
        (F : option EmailFilter.t) (query : str) (threaded : bool) (rows : list Email) :
  Str.blank query = true ->
  fetchEmails (mkParams F (Some query) threaded) rows
  = fetchEmails (mkParams F None threaded) rows.
Proof.
  intros B. unfold fetchEmails. simpl.
  now rewrite truthy_trim, B, andb_false_r.
Qed.

(** ** Search *)

Lemma untilNul_id (s : str) : ~ In 0%N s -> Str.untilNul s = s.
Proof.
  induction s as [|c r IH]; simpl; [reflexivity|]. intros H.
  destruct (c =? 0)%N eqn:C.
  - apply N.eqb_eq in C. exfalso. apply H. now left.
  - rewrite IH; [reflexivity|]. intros I. apply H. now right.
Qed.

Lemma patternCompare_percent_step (p x : str) :
  Str.patternCompare (37%N :: p) x
  = Str.patternCompare p x
    || match x with [] => false | _ :: x' => Str.patternCompare (37%N :: p) x' end.
Proof. destruct x; reflexivity. Qed.

Lemma patternCompare_percent (p x : str) :
  Str.patternCompare (37%N :: p) x = true <->
  exists pre post, x = pre ++ post /\ Str.patternCompare p post = true.
Proof.
  induction x as [|d x IH]; rewrite patternCompare_percent_step.
  - rewrite orb_false_r. split.
    + intros H. now exists [], [].
    + intros [pre [post [E H]]]. symmetry in E. apply app_eq_nil in E.
      destruct E as [_ ->]. exact H.
  - rewrite orb_true_iff, IH. split.
    + intros [H|[pre [post [-> H]]]].
      * now exists [], (d :: x).
      * now exists (d :: pre), post.
    + intros [[|c pre] [post [E H]]]; simpl in E.
      * left. now rewrite E.
      * right. injection E as _ ->. now exists pre, post.
Qed.

Lemma patternCompare_plain (q p x : str) :
  plain q ->
  (Str.patternCompare (q ++ p) x = true <->
   exists mid rest, x = mid ++ rest
     /\ Forall2 (fun c d => Str.lowerAscii c = Str.lowerAscii d) q mid
     /\ Str.patternCompare p rest = true).
Proof.
  intros P. revert x. induction P as [|c q [C1 C2] P IH]; intros x.
  - simpl. split.
    + intros H. exists [], x. repeat split; [constructor | exact H].
    + intros [mid [rest [-> [F H]]]]. inversion F; subst. exact H.
  - simpl. apply N.eqb_neq in C1. apply N.eqb_neq in C2. rewrite C1, C2. simpl.
    destruct x as [|d x].
    + split; [discriminate|]. intros [mid [rest [E [F _]]]].
      inversion F; subst. discriminate E.
    + rewrite andb_true_iff, N.eqb_eq, IH. split.
      * intros [L [mid [rest [-> [F H]]]]]. exists (d :: mid), rest.
        repeat split; [now constructor | exact H].
      * intros [mid [rest [E [F H]]]]. inversion F as [|? d' ? mid' L F']; subst.
        simpl in E. injection E as -> ->. split; [exact L|].
        now exists mid', rest.
Qed.

(** [LIKE '%q%'] for a [q] without wildcards and without U+0000: [q] occurs
    in the text before the text's first U+0000. *)
Lemma like_contains (q text : str) :
  plain q -> ~ In 0%N q ->
  (Str.like ((37%N :: q) ++ [37%N]) text = true <-> occursIn q (Str.untilNul text)).
Proof.
  intros P Z. unfold Str.like. rewrite untilNul_id.
  2:{ intros I. apply in_app_or in I. destruct I as [[I|I]|[I|[]]];
        [discriminate I | contradiction | discriminate I]. }
  generalize (Str.untilNul text) as x. intros x.
  change ((37%N :: q) ++ [37%N]) with (37%N :: (q ++ [37%N])).
  rewrite patternCompare_percent. unfold occursIn. split.
  - intros [pre [post [-> H]]]. apply (patternCompare_plain q [37%N] post P) in H.
    destruct H as [mid [rest [-> [F _]]]]. now exists pre, mid, rest.
  - intros [pre [mid [post [-> F]]]]. exists pre, (mid ++ post). split; [reflexivity|].
    apply (patternCompare_plain q [37%N] _ P). exists mid, post. repeat split; [exact F|].
    apply patternCompare_percent. exists post, []. split; [now rewrite app_nil_r | reflexivity].
Qed.

(** X7. The search condition of a query that holds no wildcard and no
    U+0000 selects the rows in which the query occurs, up to ASCII case, in
    the subject, the recipient, the sender or the content, each read up to
    its first U+0000. *)
Theorem getSearchConditions_occurs (query : str) (e : Email) :
  plain query -> ~ In 0%N query ->
  (getSearchConditions query e = true <->
   occursIn query (Str.untilNul (subject e))
   \/ occursIn query (Str.untilNul (to e))
   \/ occursIn query (Str.untilNul (from e))
   \/ exists c, content e = Some c /\ occursIn query (Str.untilNul c)).
Proof.
  intros P Z. unfold getSearchConditions, Sql.or, Sql.like. simpl existsb.
  rewrite orb_false_r, !orb_true_iff.
  rewrite !(like_contains query _ P Z).
  destruct (content e) as [c|].
  - rewrite (like_contains query _ P Z). split.
    + intros [H|[H|[H|H]]]; auto. right. right. right. now exists c.
    + intros [H|[H|[H|[c' [[= <-] H]]]]]; auto.
  - split.
    + intros [H|[H|[H|H]]]; auto. discriminate.
    + intros [H|[H|[H|[c' [H _]]]]]; auto. discriminate.
Qed.

Lemma getSearchConditions_occurs_witness :
  getSearchConditions `"hello"
    (mkEmail 9 `"t9" [72; 101; 108; 108; 111; 0; 33]%N `"a@b.com" `"me@company.com" None
             true false false INCOMING 100 100) = true.
Proof.
  apply (getSearchConditions_occurs `"hello").
  - repeat constructor; discriminate.
  - vm_compute. intuition discriminate.
  - left. exists [], `"Hello", []. split; [reflexivity|].
    repeat constructor.
Defined.

(** A subject that holds [hello] only after a U+0000 is not found by the
    query [hello]. *)
Example search_stops_at_nul :
  getSearchConditions `"hello"
    (mkEmail 9 `"t9" [97; 98; 0; 104; 101; 108; 108; 111]%N `"a@b.com" `"me@company.com" None
             true false false INCOMING 100 100) = false.
Proof. reflexivity. Qed.

Lemma patternCompare_percents (q x : str) :
  Forall (fun c => c = 37%N) q -> Str.patternCompare (q ++ [37%N]) x = true.
Proof.
  intros H. induction H as [|c q -> _ IH]; simpl app.
  - apply patternCompare_percent. exists x, []. split; [now rewrite app_nil_r | reflexivity].
  - apply patternCompare_percent. now exists [], x.
Qed.

(** X8. The wildcards of a query are not escaped: the search condition of a
    query made of [%] alone is true of every row. *)
Theorem getSearchConditions_percent (query : str) (e : Email) :
  Forall (fun c => c = 37%N) query -> getSearchConditions query e = true.
Proof.
  intros H. unfold getSearchConditions, Sql.or, Sql.like. simpl existsb.
  unfold Str.like. rewrite untilNul_id.
  - rewrite (patternCompare_percents (37%N :: query)); [reflexivity | now constructor].
  - intros I. change (In 0%N ((37%N :: query) ++ [37%N])) in I.
    apply in_app_or in I. destruct I as [[I|I]|[I|[]]]; try discriminate I.
    rewrite Forall_forall in H. specialize (H _ I). discriminate H.
Qed.


(** ** More on the mutation handlers *)


Lemma fold_max_ge (z : Z) (l : list Z) :
  z <= fold_right Z.max z l /\ forall x, In x l -> x <= fold_right Z.max z l.
Proof.
  induction l as [|y l [IH1 IH2]]; simpl.
  - split; [lia | intros x []].
  - split; [lia|]. intros x [<-|H]; [lia|]. specialize (IH2 x H). lia.
Qed.


Lemma update_ids (set : Email -> Email) (c : SQL) (rows : list Email) :
  (forall e, id (set e) = id e) ->
  map id (map (fun e => if c e then set e else e) rows) = map id rows.
Proof.
  intros H. rewrite map_map. apply map_ext. intros e. destruct (c e); auto.
Qed.

Lemma PATCH_ids (env : Env) (body : UpdateEmailRequest.t) (db : DB) :
  map id (emails (snd (PATCH env body db))) = map id (emails db).
Proof.
  rewrite PATCH_emails. destruct (patchCondition body); [|reflexivity].
  now apply update_ids.
Qed.

Lemma DELETE_ids (env : Env) (p : DeleteParams.t) (db : DB) :
  map id (emails (snd (DELETE env p db))) = map id (emails db).
Proof.
  rewrite DELETE_emails. destruct (deleteCondition p); [reflexivity|].
  now apply update_ids.
Qed.

Lemma POST_emails (env : Env) (body : CreateEmailRequest.t) (db : DB) :
  emails (snd (POST env body db)) = emails db
  \/ exists email, emails (snd (POST env body db)) = emails db ++ [email]
                   /\ forall e, In e (emails db) -> id e < id email.
Proof.
  unfold POST.
  destruct (nonBlank (CreateEmailRequest.subject body)); [|now left].
  destruct (nonBlank (CreateEmailRequest.to body)); [|now left].
  right. unfold bind, Db.insert, invalidateStats, bind, ret. cbn [fst snd].
  eexists. split; [reflexivity|].
  intros e He. apply (in_map id) in He.
  destruct (fold_max_ge (emails_seq db) (map id (emails db))) as [_ G].
  specialize (G _ He). simpl. lia.
Qed.

(** X10. The primary key is kept: when the ids of the table are pairwise
    distinct, they still are after any create, update or soft-delete
    request, whatever the request and its answer. *)
Theorem handlers_keep_ids_distinct (env : Env) (db : DB) :
  NoDup (map id (emails db)) ->
  (forall body, NoDup (map id (emails (snd (POST env body db)))))
  /\ (forall body, NoDup (map id (emails (snd (PATCH env body db)))))
  /\ (forall p, NoDup (map id (emails (snd (DELETE env p db))))).
Proof.
  intros N. split; [|split].
  - intros body. destruct (POST_emails env body db) as [->|[email [-> H]]]; [exact N|].
    rewrite map_app. simpl. apply NoDup_app; [exact N | repeat constructor; intros [] |].
    intros x Hx [<-|[]]. apply in_map_iff in Hx. destruct Hx as [e [E He]].
    specialize (H e He). lia.
  - intros body. now rewrite PATCH_ids.
  - intros p. now rewrite DELETE_ids.
Qed.

Lemma handlers_keep_ids_distinct_witness :
  NoDup (map id (emails (snd (POST (mkEnv 100 `"thread-x") hi (mkDB [tie_kept; starred] 5 []))))).
Proof.
  apply (handlers_keep_ids_distinct (mkEnv 100 `"thread-x") (mkDB [tie_kept; starred] 5 [])).
  vm_compute. repeat constructor; simpl; intuition discriminate.
Defined.

(** X11. A soft-delete request changes nothing but the deleted flag and the
    update time of the rows it addresses: the table keeps its rows position
    for position, every row keeps all its other columns, and no row leaves
    the trash. *)
Theorem DELETE_frame (env : Env) (p : DeleteParams.t) (db : DB) :
  Forall2 (fun e e' =>
             (e' = e \/ e' = softDelete env e)
             /\ id e' = id e /\ threadId e' = threadId e /\ subject e' = subject e
             /\ from e' = from e /\ to e' = to e /\ content e' = content e
             /\ isRead e' = isRead e /\ isImportant e' = isImportant e
             /\ direction e' = direction e /\ createdAt e' = createdAt e
             /\ (isDeleted e = true -> isDeleted e' = true))
          (emails db) (emails (snd (DELETE env p db))).
Proof.
  rewrite DELETE_emails. destruct (deleteCondition p) as [m|c].
  - rewrite <- (map_id (emails db)) at 2.
    apply Forall2_map_self. intros e _. repeat split; auto.
  - apply Forall2_map_self. intros e _. destruct (c e); repeat split; auto.
Qed.

Lemma update_nothing (set : Email -> Email) (c : SQL) (rows : list Email) :
  Sql.select_where c rows = [] ->
  map (fun e => if c e then set e else e) rows = rows.
Proof.
  unfold Sql.select_where. induction rows as [|e r IH]; simpl; [reflexivity|].
  destruct (c e); [discriminate|]. intros H. now rewrite IH.
Qed.

Lemma DB_eta (db : DB) : mkDB (emails db) (emails_seq db) (emailStats db) = db.
Proof. now destruct db. Qed.

(** X12. A create, update or soft-delete request that is answered with an error
    has changed nothing: the store it leaves, stats row included, is the
    store it found. The error is a 400 or a 404. *)
Theorem failed_mutation_changes_nothing (env : Env) (db : DB) (error : str) (status : Z) :
  (forall body, fst (POST env body db) = errorResponse error status ->
                snd (POST env body db) = db /\ status = 400)
  /\ (forall body, fst (PATCH env body db) = errorResponse error status ->
                   snd (PATCH env body db) = db /\ (status = 400 \/ status = 404))
  /\ (forall p, fst (DELETE env p db) = errorResponse error status ->
                snd (DELETE env p db) = db /\ (status = 400 \/ status = 404)).
Proof.
  split; [|split].
  - intros body. unfold POST.
    destruct (nonBlank (CreateEmailRequest.subject body)).
    + destruct (nonBlank (CreateEmailRequest.to body)).
      * unfold bind, Db.insert, invalidateStats, bind, ret. cbn [fst snd]. discriminate.
      * simpl. intros [= _ <-]. auto.
    + simpl. intros [= _ <-]. auto.
  - intros body. destruct (patchCondition body) as [c|] eqn:C.
    + rewrite (PATCH_unfold env body db c C). cbv zeta. unfold Db.update. cbn [fst snd].
      destruct (map (updateData env body) (Sql.select_where c (emails db))) eqn:U.
      * intros [= _ <-]. split; [|now right].
        apply map_eq_nil in U. rewrite (update_nothing _ _ _ U). apply DB_eta.
      * discriminate.
    + unfold PATCH. rewrite C. simpl. intros [= _ <-]. auto.
  - intros p. destruct (deleteCondition p) as [m|c] eqn:C.
    + unfold DELETE. rewrite C. simpl. intros [= _ <-]. auto.
    + destruct (DELETE_unfold env p db c C) as [message ->]. cbv zeta.
      unfold Db.update. cbn [fst snd].
      destruct (map (softDelete env) (Sql.select_where c (emails db))) eqn:U.
      * intros [= _ <-]. split; [|now right].
        apply map_eq_nil in U. rewrite (update_nothing _ _ _ U). apply DB_eta.
      * discriminate.
Qed.

Lemma failed_mutation_changes_nothing_witness :
  let env := mkEnv 100 `"thread-x" in
  let db := mkDB [tie_kept] 1 [] in
  let body := UpdateEmailRequest.mk (Some 5) None (Some true) None None in
  snd (PATCH env body db) = db /\ (404 = 400 \/ 404 = 404).
Proof.
  intros env db body.
  apply (proj1 (proj2 (failed_mutation_changes_nothing env db `"Email(s) not found" 404)) body).
  reflexivity.
Defined.

(** X13. A soft-delete addressed by thread id cannot be repeated: the rows it
    addresses are the ones not yet deleted, so after one such request,
    whatever its answer, the same request finds no row, is answered with 404
    and changes nothing. *)
Theorem DELETE_thread_twice (env env' : Env) (p : DeleteParams.t) (db : DB) (thread : str) :
  truthyStr (DeleteParams.threadId p) = Some thread ->
  DELETE env' p (snd (DELETE env p db))
  = (errorResponse `"Email(s) not found" 404, snd (DELETE env p db)).
Proof.
  intros T. destruct (deleteCondition_thread p thread T) as [c [C Hc]].
  destruct (DELETE_unfold env' p (snd (DELETE env p db)) c C) as [message ->].
  cbv zeta. unfold Db.update. cbn [fst snd].
  assert (E : Sql.select_where c (emails (snd (DELETE env p db))) = []).
  { rewrite DELETE_emails, C. unfold Sql.select_where.
    induction (emails db) as [|e r IH]; simpl; [reflexivity|].
    destruct (c e) eqn:Ce.
    - rewrite Hc. simpl. rewrite andb_false_r. exact IH.
    - rewrite Ce. exact IH. }
  rewrite E. simpl. f_equal.
  rewrite (update_nothing _ _ _ E). apply DB_eta.
Qed.

Lemma DELETE_thread_twice_witness :
  let env := mkEnv 300 `"thread-x" in
  let p := DeleteParams.mk None (Some `"t1") None in
  let db := mkDB [tie_kept; starred] 5 [] in
  DELETE env p (snd (DELETE env p db))
  = (errorResponse `"Email(s) not found" 404, snd (DELETE env p db)).
Proof.
  intros env p db. apply (DELETE_thread_twice env env p db `"t1"). reflexivity.
Defined.

(** X14. After a soft-delete addressed by thread id without a filter, every row
    of the thread is in the trash, so no list but the trash list shows the
    thread any more. *)
Theorem DELETE_thread_empties (env : Env) (p : DeleteParams.t) (db : DB) (thread : str) :
  truthyStr (DeleteParams.threadId p) = Some thread ->
  DeleteParams.filter p = None ->
  (forall e, In e (emails (snd (DELETE env p db))) -> threadId e = thread ->
             isDeleted e = true)
  /\ (forall params e,
        q_filter params <> Some EmailFilter.trash -> q_threaded params = false ->
        In e (fetchEmails params (emails (snd (DELETE env p db)))) ->
        threadId e <> thread).
Proof.
  intros T F.
  assert (A : forall e, In e (emails (snd (DELETE env p db))) -> threadId e = thread ->
                        isDeleted e = true).
  { intros e He Et. rewrite DELETE_emails in He.
    destruct (deleteCondition_thread p thread T) as [c [C Hc]]. rewrite C in He.
    apply in_map_iff in He. destruct He as [a [Ea Ha]].
    specialize (Hc a). rewrite F in Hc. rewrite andb_true_r in Hc.
    destruct (c a) eqn:Ca.
    - now subst e.
    - subst e. rewrite Et, Str_eqb_refl in Hc. simpl in Hc.
      now destruct (isDeleted a). }
  split; [exact A|].
  intros params e NT TH He Et.
  rewrite fetchEmails_unfold, TH in He. apply orderBy_In, filter_In in He.
  destruct He as [He Hc]. apply conditionsOf_filter in Hc.
  specialize (A e He Et).
  destruct (q_filter params) as [[]|]; try congruence;
    unfold getFilterCondition, Sql.and, Sql.eq_bool in Hc; simpl in Hc;
    rewrite A in Hc; simpl in Hc; rewrite ?andb_false_r in Hc; discriminate.
Qed.

Lemma DELETE_thread_empties_witness :
  let env := mkEnv 300 `"thread-x" in
  let p := DeleteParams.mk None (Some `"t1") None in
  let db := mkDB [tie_kept; starred] 5 [] in
  isDeleted (softDelete env starred) = true.
Proof.
  intros env p db.
  apply (proj1 (DELETE_thread_empties env p db `"t1" eq_refl eq_refl)).
  - right. left. reflexivity.
  - reflexivity.
Defined.

Lemma DELETE_byId_unfold (env : Env) (s : str) (i : Z) (db : DB) :
  Str.parseInt s = Some i ->
  DELETE env (deleteById s) db =
  let d := snd (Db.update (softDelete env) (Sql.eq_int id i) db) in
  match fst (Db.update (softDelete env) (Sql.eq_int id i) db) with
  | [] => (errorResponse `"Email(s) not found" 404, d)
  | _ :: _ =>
      (successResponse (Message `"Email moved to trash" (fst (recalculateStats env d))) 200,
       snd (recalculateStats env d))
  end.
Proof.
  intros P. unfold DELETE, deleteCondition, deleteById.
  cbn [DeleteParams.threadId DeleteParams.id DeleteParams.filter].
  rewrite (parseInt_truthy s i P). cbn [truthyStr]. rewrite P.
  unfold bind. destruct (Db.update (softDelete env) (Sql.eq_int id i) db) as [[|e r] d];
    reflexivity.
Qed.

(** X15. A soft-delete addressed by id can be repeated: when a row has the id,
    the request succeeds, and the same request then succeeds again on the
    row now in the trash, answers with the same counters and changes no more
    than update times. *)
Theorem DELETE_id_repeats (env env' : Env) (s : str) (i : Z) (db : DB) (a : Email) :
  Str.parseInt s = Some i -> In a (emails db) -> id a = i ->
  let first := DELETE env (deleteById s) db in
  let second := DELETE env' (deleteById s) (snd first) in
  exists stats,
    fst first = successResponse (Message `"Email moved to trash" stats) 200
    /\ fst second = successResponse (Message `"Email moved to trash" stats) 200
    /\ Forall2 sameButUpdatedAt (emails (snd second)) (emails (snd first)).
Proof.
  intros P Ha Ia first second.
  set (g := fun e => if Sql.eq_int id i e then softDelete env e else e).
  set (h := fun e => if Sql.eq_int id i e then softDelete env' e else e).
  assert (C : deleteCondition (deleteById s) = inr (Sql.eq_int id i)).
  { unfold deleteCondition, deleteById.
    cbn [DeleteParams.threadId DeleteParams.id DeleteParams.filter].
    rewrite (parseInt_truthy s i P). cbn [truthyStr]. now rewrite P. }
  assert (E1 : emails (snd first) = map g (emails db)).
  { unfold first. now rewrite DELETE_emails, C. }
  assert (E2 : emails (snd second) = map h (emails (snd first))).
  { unfold second. now rewrite DELETE_emails, C. }
  assert (Ia' : Sql.eq_int id i a = true) by (unfold Sql.eq_int; now apply Z.eqb_eq).
  assert (S1 : exists x xs, Sql.select_where (Sql.eq_int id i) (emails db) = x :: xs).
  { assert (X : In a (Sql.select_where (Sql.eq_int id i) (emails db))).
    { apply filter_In. now split. }
    destruct (Sql.select_where _ (emails db)) as [|x xs]; [destruct X | eauto]. }
  assert (S2 : exists x xs, Sql.select_where (Sql.eq_int id i) (emails (snd first)) = x :: xs).
  { assert (X : In (g a) (Sql.select_where (Sql.eq_int id i) (emails (snd first)))).
    { apply filter_In. split; [rewrite E1; now apply in_map|].
      unfold g. now rewrite Ia'. }
    destruct (Sql.select_where _ (emails (snd first))) as [|x xs]; [destruct X | eauto]. }
  set (k := fun e => if Sql.eq_int id i e then touch (now env') e else e).
  assert (K : forall e, sameButUpdatedAt (k e) e).
  { intros e. unfold k. destruct (Sql.eq_int id i e); reflexivity. }
  assert (E3 : emails (snd second) = map k (emails (snd first))).
  { rewrite E2, E1, !map_map. apply map_ext. intros e.
    unfold h, k, g, Sql.eq_int. destruct (id e =? i) eqn:Ie; simpl; rewrite Ie; reflexivity. }
  assert (A : aggregate (emails (snd second)) = aggregate (emails (snd first))).
  { rewrite E3. now apply aggregate_g. }
  exists (aggregate (emails (snd first))). split; [|split].
  - unfold first at 1. rewrite (DELETE_byId_unfold env s i db P). cbv zeta.
    unfold Db.update. cbn [fst snd].
    destruct S1 as [x [xs ->]]. cbn [map fst]. rewrite recalculateStats_fst. cbn [emails].
    now rewrite E1.
  - unfold second at 1. rewrite (DELETE_byId_unfold env' s i (snd first) P). cbv zeta.
    unfold Db.update. cbn [fst snd].
    destruct S2 as [x [xs ->]]. cbn [map fst]. rewrite recalculateStats_fst. cbn [emails].
    now rewrite <- A, E2.
  - rewrite E3. rewrite <- (map_id (emails (snd first))) at 2.
    generalize (emails (snd first)) as l. intros l.
    induction l as [|e l IH]; simpl; constructor; [apply K | exact IH].
Qed.

Lemma DELETE_id_repeats_witness :
  let env := mkEnv 300 `"thread-x" in
  let db := mkDB [tie_kept; starred] 5 [] in
  exists stats,
    fst (DELETE env (deleteById `"5") db)
    = successResponse (Message `"Email moved to trash" stats) 200
    /\ fst (DELETE env (deleteById `"5") (snd (DELETE env (deleteById `"5") db)))
       = successResponse (Message `"Email moved to trash" stats) 200
    /\ Forall2 sameButUpdatedAt
         (emails (snd (DELETE env (deleteById `"5") (snd (DELETE env (deleteById `"5") db)))))
         (emails (snd (DELETE env (deleteById `"5") db))).
Proof.
  intros env db.
  apply (DELETE_id_repeats env env `"5" 5 db starred); [reflexivity | | reflexivity].
  right. now left.
Defined.

(** X16. When a request names a thread id, the id it may also carry plays no
    part: PATCH and DELETE address the thread. *)
Theorem threadId_overrides_id
        (env : Env) (db : DB) (thread : str)
        (body body' : UpdateEmailRequest.t) (p p' : DeleteParams.t) :
  truthyStr (UpdateEmailRequest.threadId body) = Some thread ->
  UpdateEmailRequest.threadId body' = UpdateEmailRequest.threadId body ->
  UpdateEmailRequest.isRead body' = UpdateEmailRequest.isRead body ->
  UpdateEmailRequest.isImportant body' = UpdateEmailRequest.isImportant body ->
  UpdateEmailRequest.isDeleted body' = UpdateEmailRequest.isDeleted body ->
  truthyStr (DeleteParams.threadId p) = Some thread ->
  DeleteParams.threadId p' = DeleteParams.threadId p ->
  DeleteParams.filter p' = DeleteParams.filter p ->
  PATCH env body' db = PATCH env body db /\ DELETE env p' db = DELETE env p db.
Proof.
  intros T Et Er Ei Ed T' Et' Ef. split.
  - unfold PATCH. rewrite (patchCondition_thread body thread T).
    rewrite (patchCondition_thread body' thread) by now rewrite Et.
    unfold updateData. now rewrite Er, Ei, Ed.
  - unfold DELETE, deleteCondition. rewrite Et', Ef, T'. reflexivity.
Qed.

Lemma threadId_overrides_id_witness :
  let env := mkEnv 300 `"thread-x" in
  let db := mkDB [tie_kept; starred] 5 [] in
  PATCH env (UpdateEmailRequest.mk (Some 99) (Some `"t1") (Some false) None None) db
  = PATCH env (UpdateEmailRequest.mk None (Some `"t1") (Some false) None None) db
  /\ DELETE env (DeleteParams.mk (Some `"abc") (Some `"t1") None) db
     = DELETE env (DeleteParams.mk None (Some `"t1") None) db.
Proof.
  intros env db.
  apply (threadId_overrides_id env db `"t1"); reflexivity.
Defined.

(** ** More on the stats *)

Lemma COUNT_cons (c : SQL) (e : Email) (rows : list Email) :
  Sql.COUNT (Sql.select_where c (e :: rows))
  = (if c e then 1 else 0) + Sql.COUNT (Sql.select_where c rows).
Proof.
  unfold Sql.COUNT, Sql.select_where. simpl. destruct (c e); simpl List.length; lia.
Qed.

(** X18. The recalculated counters count rows of the email table, no row
    twice among inbox, sent and deleted: none is negative, inbox, sent and
    deleted together are at most the number of rows, unread rows are inbox
    rows, and important rows are rows that are not deleted. When the
    direction of every row is incoming or outgoing, every row is counted
    exactly once among inbox, sent and deleted, and important rows are inbox
    or sent rows. *)
Theorem recalculateStats_bounds (env : Env) (db : DB) :
  let stats := fst (recalculateStats env db) in
  let rows := Z.of_nat (List.length (emails db)) in
  0 <= total stats /\ 0 <= sent stats /\ 0 <= deleted stats
  /\ total stats + sent stats + deleted stats <= rows
  /\ 0 <= unread stats <= total stats
  /\ 0 <= important stats <= rows - deleted stats
  /\ ((forall e, In e (emails db) -> direction e = INCOMING \/ direction e = OUTGOING) ->
      total stats + sent stats + deleted stats = rows
      /\ important stats <= total stats + sent stats).
Proof.
  intros stats rows. subst stats rows. rewrite recalculateStats_fst. unfold aggregate.
  cbn [total unread important sent deleted].
  induction (emails db) as [|e r IH].
  - vm_compute. repeat split; try discriminate; reflexivity.
  - rewrite !COUNT_cons. cbn [List.length]. rewrite Nat2Z.inj_succ.
    repeat match goal with
           | |- context [Sql.COUNT (Sql.select_where ?c r)] =>
               let n := fresh "n" in
               remember (Sql.COUNT (Sql.select_where c r)) as n
           end.
    destruct IH as [I1 [I2 [I3 [I4 [I5 [I6 I7]]]]]].
    unfold Sql.and, Sql.eq_direction, Sql.eq_bool. cbn [forallb].
    assert (X : EmailDirection_eqb (direction e) INCOMING
                && EmailDirection_eqb (direction e) OUTGOING = false)
      by now destruct (direction e).
    repeat split;
      try (destruct (EmailDirection_eqb (direction e) INCOMING),
                    (EmailDirection_eqb (direction e) OUTGOING),
                    (isRead e), (isImportant e), (isDeleted e);
           try discriminate X; cbn [Bool.eqb andb]; lia).
    + destruct (I7 (fun a Ha => H a (or_intror Ha))) as [J _].
      destruct (H e (or_introl eq_refl)) as [D|D]; rewrite D;
        destruct (isDeleted e); cbn [EmailDirection_eqb Bool.eqb andb]; lia.
    + destruct (I7 (fun a Ha => H a (or_intror Ha))) as [_ J].
      destruct (H e (or_introl eq_refl)) as [D|D]; rewrite D;
        destruct (isImportant e), (isDeleted e); cbn [EmailDirection_eqb Bool.eqb andb]; lia.
Qed.

Lemma recalculateStats_bounds_witness :
  let stats := fst (recalculateStats (mkEnv 300 `"thread-x")
                      (mkDB [tie_kept; tie_trashed; reply_sent] 4 [])) in
  total stats + sent stats + deleted stats = 3
  /\ important stats <= total stats + sent stats.
Proof.
  intros stats.
  apply (proj2 (proj2 (proj2 (proj2 (proj2 (proj2
           (recalculateStats_bounds (mkEnv 300 `"thread-x")
              (mkDB [tie_kept; tie_trashed; reply_sent] 4 [])))))))).
  intros e [<-|[<-|[<-|[]]]]; [left | left | right]; reflexivity.
Defined.

(** X19. Reading the stats back after a recalculation returns the recalculated
    inbox, unread, important and sent counters, and writes nothing. *)
Theorem getStats_after_recalculate (env env' : Env) (db : DB) :
  let stats := fst (recalculateStats env db) in
  let db' := snd (recalculateStats env db) in
  total (fst (getStats env' db')) = total stats
  /\ unread (fst (getStats env' db')) = unread stats
  /\ important (fst (getStats env' db')) = important stats
  /\ sent (fst (getStats env' db')) = sent stats
  /\ snd (getStats env' db') = db'.
Proof.
  intros stats db'. destruct (recalculateStats_row env db) as [Hex Hall].
  fold db' in Hex, Hall. rewrite <- recalculateStats_fst with (env := env) in Hall.
  fold stats in Hall.
  unfold getStats, bind, Db.selectStats.
  destruct (List.filter (fun r => stats_id r =? STATS_ROW_ID) (emailStats db')) as [|row rs] eqn:F.
  - exfalso. apply Exists_exists in Hex. destruct Hex as [r [Hin Hid]].
    assert (X : In r (List.filter (fun r => stats_id r =? STATS_ROW_ID) (emailStats db'))).
    { apply filter_In. split; [exact Hin | now apply Z.eqb_eq]. }
    rewrite F in X. destruct X.
  - assert (X : In row (List.filter (fun r => stats_id r =? STATS_ROW_ID) (emailStats db'))).
    { rewrite F. now left. }
    apply filter_In in X. destruct X as [Hin Hid]. apply Z.eqb_eq in Hid.
    rewrite Forall_forall in Hall. destruct (Hall row Hin Hid) as [[H1 [H2 [H3 H4]]] _].
    unfold ret. cbn [fst snd total unread important sent]. auto.
Qed.

Lemma recalculateStats_stats (env : Env) (db : DB) :
  emailStats (snd (recalculateStats env db)) =
  let s := aggregate (emails db) in
  let written r := mkEmailStatsRow (stats_id r) (total s) (unread s) (important s) (sent s)
                                   (now env) in
  if existsb (fun r => stats_id r =? STATS_ROW_ID) (emailStats db)
  then map (fun r => if stats_id r =? STATS_ROW_ID then written r else r) (emailStats db)
  else emailStats db
       ++ [mkEmailStatsRow STATS_ROW_ID (total s) (unread s) (important s) (sent s) (now env)].
Proof. reflexivity. Qed.

(** X20. The stats table keeps one row for each id: a recalculation writes the
    row with id [STATS_ROW_ID] in place when it is there, adds it when it is
    not, and leaves rows with other ids as they are. *)
Theorem recalculateStats_single_row (env : Env) (db : DB) :
  NoDup (map stats_id (emailStats db)) ->
  let db' := snd (recalculateStats env db) in
  NoDup (map stats_id (emailStats db'))
  /\ In STATS_ROW_ID (map stats_id (emailStats db'))
  /\ (forall r, stats_id r <> STATS_ROW_ID ->
                (In r (emailStats db') <-> In r (emailStats db))).
Proof.
  intros N db'. subst db'. rewrite recalculateStats_stats. cbv zeta.
  generalize (aggregate (emails db)) as s. intros s.
  destruct (existsb (fun r => stats_id r =? STATS_ROW_ID) (emailStats db)) eqn:E.
  - assert (I : forall l,
                map stats_id
                  (map (fun r => if stats_id r =? STATS_ROW_ID
                                 then mkEmailStatsRow (stats_id r) (total s) (unread s)
                                        (important s) (sent s) (now env)
                                 else r) l)
                = map stats_id l).
    { intros l. rewrite map_map. apply map_ext. intros r.
      now destruct (stats_id r =? STATS_ROW_ID). }
    split; [|split].
    + now rewrite I.
    + rewrite I. apply existsb_exists in E. destruct E as [r [Hin Hr]].
      apply in_map_iff. exists r. split; [now apply Z.eqb_eq | exact Hin].
    + intros r Hr. split.
      * intros H. apply in_map_iff in H. destruct H as [r0 [E0 H0]].
        destruct (stats_id r0 =? STATS_ROW_ID) eqn:C0.
        -- exfalso. apply Hr. apply Z.eqb_eq in C0. now rewrite <- E0.
        -- now subst r0.
      * intros H. apply in_map_iff. exists r. split; [|exact H].
        apply Z.eqb_neq in Hr. now rewrite Hr.
  - assert (X : ~ In STATS_ROW_ID (map stats_id (emailStats db))).
    { intros H. apply in_map_iff in H. destruct H as [r [Hr Hin]].
      assert (Y : existsb (fun r => stats_id r =? STATS_ROW_ID) (emailStats db) = true).
      { apply existsb_exists. exists r. split; [exact Hin | now apply Z.eqb_eq]. }
      congruence. }
    split; [|split].
    + rewrite map_app. simpl. apply NoDup_app; [exact N | repeat constructor; intros [] |].
      intros x Hx [<-|[]]. contradiction.
    + rewrite map_app. apply in_or_app. right. now left.
    + intros r Hr. rewrite in_app_iff. split; [|now left].
      intros [H|[<-|[]]]; [exact H|]. now contradiction Hr.
Qed.

Lemma recalculateStats_single_row_witness :
  let db' := snd (recalculateStats (mkEnv 300 `"thread-x") (mkDB [tie_kept] 1 [])) in
  NoDup (map stats_id (emailStats db'))
  /\ In STATS_ROW_ID (map stats_id (emailStats db')).
Proof.
  intros db'.
  destruct (recalculateStats_single_row (mkEnv 300 `"thread-x") (mkDB [tie_kept] 1 []))
    as [N [I _]].
  - constructor.
  - split; [exact N | exact I].
Defined.

(** ** Utilities *)

Lemma cut_spec (sep : N) (s a b : str) :
  Utils.cut sep s = Some (a, b) <-> s = a ++ sep :: b /\ ~ In sep a.
Proof.
  revert a. induction s as [|c r IH]; intros a; simpl.
  - split; [discriminate|]. intros [E _]. now destruct a.
  - destruct (c =? sep)%N eqn:C.
    + apply N.eqb_eq in C. subst c. split.
      * intros [= <- <-]. split; [reflexivity | intros []].
      * intros [E N]. destruct a as [|x a]; simpl in E.
        -- now injection E as ->.
        -- injection E as <- _. exfalso. apply N. now left.
    + apply N.eqb_neq in C. destruct (Utils.cut sep r) as [[a' b']|] eqn:K.
      * split.
        -- intros [= <- <-]. destruct (proj1 (IH a') eq_refl) as [-> N].
           split; [reflexivity|]. intros [E|H]; [congruence | contradiction].
        -- intros [E N]. destruct a as [|x a]; simpl in E.
           ++ injection E as E _. congruence.
           ++ injection E as <- E.
              assert (X : Some (a', b') = Some (a, b)).
              { apply IH. split; [exact E|]. intros H. apply N. now right. }
              now injection X as -> ->.
      * split; [discriminate|]. intros [E N]. destruct a as [|x a]; simpl in E.
        -- injection E as E _. congruence.
        -- injection E as <- E.
           assert (X : None = Some (a, b)).
           { apply IH. split; [exact E|]. intros H. apply N. now right. }
           discriminate X.
Qed.

Lemma addressChar_not_at (a : str) : forallb Utils.addressChar a = true -> ~ In 64%N a.
Proof.
  intros H I. rewrite forallb_forall in H. specialize (H _ I). discriminate H.
Qed.

Lemma last_split (l : str) : l <> [] -> exists y, l = removelast l ++ [y].
Proof.
  intros H. exists (last l 0%N). now apply app_removelast_last.
Qed.

(** X21. [isValidEmail] accepts exactly the strings that, once trimmed, match
    the address pattern. *)
Theorem isValidEmail_matches (email : str) :
  Utils.isValidEmail email = true <-> matchesEmailRegex (Str.trim email).
Proof.
  unfold Utils.isValidEmail, Utils.emailRegex_test, matchesEmailRegex.
  generalize (Str.trim email) as s. intros s. split.
  - destruct (Utils.cut 64 s) as [[name domain]|] eqn:K; [|discriminate].
    apply cut_spec in K. destruct K as [-> _].
    rewrite !andb_true_iff. intros [[[T Fa] Fd] D].
    destruct domain as [|x rest]; [discriminate|].
    apply existsb_exists in D. destruct D as [d [Hd Ed]]. apply N.eqb_eq in Ed. subst d.
    apply in_split in Hd. destruct Hd as [p [q Hd]].
    destruct (last_split rest) as [y Hy].
    { intros ->. now destruct p. }
    exists name, (x :: p), (q ++ [y]).
    assert (E : x :: rest = (x :: p) ++ [46%N] ++ q ++ [y]).
    { rewrite Hy, Hd. simpl. now rewrite <- !app_assoc. }
    rewrite E in Fd. rewrite !forallb_app in Fd.
    apply andb_true_iff in Fd. destruct Fd as [Fb Fd].
    apply andb_true_iff in Fd. destruct Fd as [_ Fc].
    repeat split.
    + now rewrite E.
    + now destruct name.
    + discriminate.
    + now destruct q.
    + exact Fa.
    + exact Fb.
    + now rewrite forallb_app.
  - intros [a [b [c [-> [Na [Nb [Nc [Fa [Fb Fc]]]]]]]]].
    assert (K : Utils.cut 64 (a ++ [64%N] ++ b ++ [46%N] ++ c)
                = Some (a, b ++ [46%N] ++ c)).
    { apply cut_spec. split; [reflexivity | now apply addressChar_not_at]. }
    rewrite K. rewrite !andb_true_iff. repeat split.
    + now destruct a.
    + exact Fa.
    + rewrite !forallb_app, Fb, Fc. reflexivity.
    + destruct b as [|x p]; [congruence|]. cbn [app].
      destruct (last_split c Nc) as [y Hy].
      apply existsb_exists. exists 46%N. split; [|reflexivity].
      rewrite Hy.
      replace (p ++ 46%N :: removelast c ++ [y])
        with ((p ++ 46%N :: removelast c) ++ [y]) by now rewrite <- app_assoc.
      rewrite removelast_last. apply in_or_app. right. now left.
Qed.

Lemma trimStart_blank_app (w s : str) :
  Str.blank w = true -> Str.trimStart (w ++ s) = Str.trimStart s.
Proof.
  induction w as [|c w IH]; simpl; [reflexivity|].
  intros H. apply andb_true_iff in H. destruct H as [-> H]. now apply IH.
Qed.

Lemma trimStart_app_nonblank (s w : str) :
  Str.blank s = false -> Str.trimStart (s ++ w) = Str.trimStart s ++ w.
Proof.
  induction s as [|c s IH]; simpl; [discriminate|].
  destruct (Str.isWhiteSpace c); simpl; [exact IH | reflexivity].
Qed.

Lemma trimEnd_app_blank (s w : str) :
  Str.blank w = true -> Str.trimEnd (s ++ w) = Str.trimEnd s.
Proof.
  intros H. unfold Str.trimEnd. rewrite rev_app_distr, trimStart_blank_app; [reflexivity|].
  now rewrite blank_rev.
Qed.

(** Whitespace around a string does not show after trimming. *)
Lemma trim_padding (w1 s w2 : str) :
  Str.blank w1 = true -> Str.blank w2 = true ->
  Str.trim (w1 ++ s ++ w2) = Str.trim s.
Proof.
  intros B1 B2. unfold Str.trim. rewrite (trimStart_blank_app w1 _ B1).
  destruct (Str.blank s) eqn:B.
  - assert (X : Str.blank (s ++ w2) = true).
    { unfold Str.blank in *. now rewrite forallb_app, B, B2. }
    apply trimStart_nil_blank in X. apply trimStart_nil_blank in B. now rewrite X, B.
  - rewrite (trimStart_app_nonblank s w2 B). now apply trimEnd_app_blank.
Qed.

(** X22. [isValidEmail] does not see whitespace around the address. *)
Theorem isValidEmail_padding (w1 email w2 : str) :
  Str.blank w1 = true -> Str.blank w2 = true ->
  Utils.isValidEmail (w1 ++ email ++ w2) = Utils.isValidEmail email.
Proof.
  intros B1 B2. unfold Utils.isValidEmail. now rewrite trim_padding.
Qed.

Lemma isValidEmail_padding_witness :
  Utils.isValidEmail ([32; 9]%N ++ `"test@example.com" ++ [32; 160]%N)
  = Utils.isValidEmail `"test@example.com".
Proof.
  apply (isValidEmail_padding [32; 9]%N `"test@example.com" [32; 160]%N); reflexivity.
Defined.

Lemma split_first (sep : N) (s : str) :
  exists piece pieces, Utils.split sep s = piece :: pieces.
Proof.
  induction s as [|c s [piece [pieces IH]]]; simpl; [eauto|].
  destruct (c =? sep)%N; [eauto|]. rewrite IH. eauto.
Qed.

Lemma split_app (sep : N) (a b : str) :
  Utils.split sep (a ++ sep :: b) = Utils.split sep a ++ Utils.split sep b.
Proof.
  induction a as [|c a IH]; simpl.
  - now rewrite N.eqb_refl.
  - destruct (c =? sep)%N; [now rewrite IH|].
    rewrite IH. destruct (split_first sep a) as [piece [pieces ->]]. reflexivity.
Qed.

Lemma blank_comma (a b : str) : Str.blank (a ++ 44%N :: b) = false.
Proof.
  unfold Str.blank. rewrite forallb_app. simpl. apply andb_false_r.
Qed.

(** X23. The pieces of an address list are judged one by one: a list written
    as two lists joined by a comma is valid exactly when every piece of
    either list is a valid address. A blank piece is not, so a list with a
    leading, trailing or doubled comma is never valid. *)
Theorem validateEmailList_comma (a b : str) :
  Utils.validateEmailList (a ++ 44%N :: b)
  = forallb (fun email => Utils.isValidEmail (Str.trim email)) (Utils.split 44 a)
    && forallb (fun email => Utils.isValidEmail (Str.trim email)) (Utils.split 44 b)
  /\ Utils.validateEmailList (a ++ [44%N]) = false
  /\ Utils.validateEmailList (44%N :: b) = false
  /\ Utils.validateEmailList (a ++ 44%N :: 44%N :: b) = false.
Proof.
  assert (X : forall x y, Utils.validateEmailList (x ++ 44%N :: y)
              = forallb (fun email => Utils.isValidEmail (Str.trim email)) (Utils.split 44 x)
                && forallb (fun email => Utils.isValidEmail (Str.trim email)) (Utils.split 44 y)).
  { intros x y. unfold Utils.validateEmailList.
    rewrite truthy_trim, blank_comma. simpl negb. cbv iota.
    now rewrite split_app, forallb_app. }
  split; [apply X|split; [|split]].
  - rewrite X. simpl. apply andb_false_r.
  - change (44%N :: b) with ([] ++ 44%N :: b). rewrite X. reflexivity.
  - rewrite X. simpl. apply andb_false_r.
Qed.

(** X24. A blank list of addresses is valid, and a list without a comma is
    valid exactly when it is blank or a valid address. *)
Theorem validateEmailList_single (emails : str) :
  ~ In 44%N emails ->
  Utils.validateEmailList emails = Str.blank emails || Utils.isValidEmail emails.
Proof.
  intros N. unfold Utils.validateEmailList. rewrite truthy_trim, negb_involutive.
  destruct (Str.blank emails) eqn:B; [reflexivity|]. simpl.
  assert (S : Utils.split 44 emails = [emails]).
  { clear B. induction emails as [|c r IH]; simpl; [reflexivity|].
    destruct (c =? 44)%N eqn:C.
    - apply N.eqb_eq in C. exfalso. apply N. now left.
    - rewrite IH; [reflexivity|]. intros H. apply N. now right. }
  rewrite S. simpl. rewrite andb_true_r.
  unfold Utils.isValidEmail. f_equal.
  (* trimming twice is trimming once *)
  assert (D : exists w1 w2, Str.blank w1 = true /\ Str.blank w2 = true
                            /\ emails = w1 ++ Str.trim emails ++ w2).
  { assert (D1 : forall s, exists w, Str.blank w = true /\ s = w ++ Str.trimStart s).
    { intros s. induction s as [|c s [w [Bw E]]]; simpl.
      - now exists [].
      - destruct (Str.isWhiteSpace c) eqn:W.
        + exists (c :: w). simpl. rewrite W, Bw. split; [reflexivity | now rewrite <- E].
        + now exists []. }
    destruct (D1 emails) as [w1 [B1 E1]].
    destruct (D1 (rev (Str.trimStart emails))) as [w2 [B2 E2]].
    exists w1, (rev w2). rewrite blank_rev. repeat split; try assumption.
    unfold Str.trim, Str.trimEnd. rewrite <- rev_app_distr, <- E2, rev_involutive.
    exact E1. }
  destruct D as [w1 [w2 [B1 [B2 E]]]].
  rewrite E at 2. now rewrite trim_padding.
Qed.

Lemma validateEmailList_single_witness :
  Utils.validateEmailList `"test@example.com"
  = Str.blank `"test@example.com" || Utils.isValidEmail `"test@example.com".
Proof.
  apply (validateEmailList_single `"test@example.com").
  vm_compute. intuition discriminate.
Defined.

(** X25. [truncateText] never answers with the empty string and answers with at
    most [maxLength + 3] code units, or the ten of "No content" if that is
    more; a text that is not empty is given back unchanged when it fits and
    cut to its first [maxLength] code units, followed by three dots, when it
    does not. *)
Theorem truncateText_bounds (text : option str) (maxLength : Z) :
  Utils.truncateText text (Some maxLength) <> []
  /\ Z.of_nat (List.length (Utils.truncateText text (Some maxLength)))
     <= Z.max 10 (maxLength + 3)
  /\ (forall t, text = Some t -> t <> [] -> Z.of_nat (List.length t) <= maxLength ->
                Utils.truncateText text (Some maxLength) = t)
  /\ (forall t, text = Some t -> t <> [] -> maxLength < Z.of_nat (List.length t) ->
                Utils.truncateText text (Some maxLength)
                = firstn (Z.to_nat maxLength) t ++ `"...").
Proof.
  assert (L : Z.of_nat (List.length `"No content") = 10) by reflexivity.
  unfold Utils.truncateText, Utils.substring0.
  destruct text as [[|c t]|]; cbn [truthyStr Str.truthy].
  - split; [discriminate|]. split; [rewrite L; lia|].
    split; intros t [= <-] H; congruence.
  - destruct (Z.of_nat (List.length (c :: t)) >? maxLength) eqn:G.
    + apply Z.gtb_lt in G. split; [|split; [|split]].
      * intros H. apply app_eq_nil in H. destruct H as [_ H]. discriminate H.
      * rewrite length_app, length_firstn.
        change (List.length `"...") with 3%nat. lia.
      * intros t' [= <-] _ H. lia.
      * intros t' [= <-] _ _. reflexivity.
    + assert (G' : Z.of_nat (List.length (c :: t)) <= maxLength).
      { rewrite Z.gtb_ltb in G. now apply Z.ltb_ge in G. }
      split; [discriminate|]. split; [lia|]. split.
      * intros t' [= <-] _ _. reflexivity.
      * intros t' [= <-] _ H. lia.
  - split; [discriminate|]. split; [rewrite L; lia|].
    split; intros t H; discriminate H.
Qed.

(** The cases of the repository's own tests of the two validators. *)
Example isValidEmail_tests :
  map Utils.isValidEmail
      [`"test@example.com"; `"user.name@domain.org"; `"user+tag@example.co.uk";
       `"invalid"; `"missing@domain"; `"@nodomain.com"; `"no spaces@example.com";
       `"  test@example.com  "]
  = [true; true; true; false; false; false; false; true]
  /\ map Utils.validateEmailList
         [`""; `"   "; `"test@example.com"; `"a@example.com, b@example.com";
          `"a@example.com,b@example.com,c@example.com";
          `"valid@example.com, invalid"; `"invalid, valid@example.com"]
     = [true; true; true; true; true; false; false].
Proof. vm_compute. split; reflexivity. Qed.

(** ** Optimistic updates *)

Lemma insert_sorted_front {A : Type} (le : A -> A -> bool) (x : A) (l : list A) :
  (forall h, In h l -> le x h = true) -> Sql.insert_sorted le x l = x :: l.
Proof.
  destruct l as [|y r]; simpl; [reflexivity|].
  intros H. now rewrite (H y (or_introl eq_refl)).
Qed.

Lemma insert_sorted_filter {A : Type} (le : A -> A -> bool) (P : A -> bool) (x : A) (l : list A) :
  (forall a b c, le a b = true -> le b c = true -> le a c = true) ->
  Sorted (fun u v => le u v = true) l ->
  List.filter P (Sql.insert_sorted le x l)
  = if P x then Sql.insert_sorted le x (List.filter P l) else List.filter P l.
Proof.
  intros T S. apply Sorted_StronglySorted in S; [|intros a b c; apply T].
  induction S as [|y r Sr IH Hy]; simpl.
  - now destruct (P x).
  - destruct (le x y) eqn:L.
    + simpl. destruct (P x); [|reflexivity].
      symmetry. apply insert_sorted_front. intros h Hh.
      assert (X : In h (y :: r)).
      { destruct (P y); [destruct Hh as [<-|Hh]; [now left|right] | right];
          apply filter_In in Hh; tauto. }
      destruct X as [<-|X]; [exact L|].
      rewrite Forall_forall in Hy. exact (T _ _ _ L (Hy h X)).
    + simpl. rewrite IH. destruct (P y), (P x); simpl; try rewrite L; reflexivity.
Qed.

(** Sorting and then keeping some rows is keeping them and then sorting. *)
Lemma orderBy_filter {A : Type} (le : A -> A -> bool) (P : A -> bool) (l : list A) :
  (forall a b, le a b = true \/ le b a = true) ->
  (forall a b c, le a b = true -> le b c = true -> le a c = true) ->
  List.filter P (Sql.orderBy le l) = Sql.orderBy le (List.filter P l).
Proof.
  intros Tot T. induction l as [|x l IH]; simpl; [reflexivity|].
  rewrite insert_sorted_filter; [|exact T | now apply orderBy_Sorted].
  rewrite IH. now destruct (P x).
Qed.

Lemma desc_trans (col : Email -> Z) (a b c : Email) :
  Sql.desc col a b = true -> Sql.desc col b c = true -> Sql.desc col a c = true.
Proof. unfold Sql.desc. rewrite !Z.leb_le. lia. Qed.

(** A list that is not threaded, after an update that takes the addressed
    rows out of the list's selection and leaves the others as they are:
    the list of before without the rows [keep] rejects. *)
Lemma refetch_after_removal
      (params : EmailQueryParams) (rows : list Email)
      (c : SQL) (set : Email -> Email) (keep : Email -> bool) :
  q_threaded params = false ->
  (forall e, c e = true -> keep e = false) ->
  (forall e, c e = true -> Sql.and (conditionsOf params) (set e) = false) ->
  (forall e, c e = false -> Sql.and (conditionsOf params) e = true -> keep e = true) ->
  fetchEmails params (map (fun e => if c e then set e else e) rows)
  = List.filter keep (fetchEmails params rows).
Proof.
  intros TH K1 K2 K3. rewrite !fetchEmails_unfold, TH.
  rewrite orderBy_filter; [|apply desc_total | apply desc_trans].
  f_equal. unfold Sql.select_where.
  revert K2 K3. generalize (Sql.and (conditionsOf params)) as conds. intros conds K2 K3.
  induction rows as [|e r IH]; [reflexivity|].
  cbn [map List.filter]. destruct (c e) eqn:Ce.
  - rewrite (K2 e Ce). destruct (conds e); cbn [List.filter];
      [rewrite (K1 e Ce)|]; exact IH.
  - destruct (conds e) eqn:Se; cbn [List.filter]; [|exact IH].
    rewrite (K3 e Ce Se). now rewrite IH.
Qed.

Lemma conditions_not_deleted (params : EmailQueryParams) (e : Email) :
  q_filter params <> Some EmailFilter.trash ->
  isDeleted e = true -> Sql.and (conditionsOf params) e = false.
Proof.
  intros NT D. destruct (Sql.and (conditionsOf params) e) eqn:S; [|reflexivity].
  apply conditionsOf_filter in S.
  destruct (q_filter params) as [[]|]; try congruence;
    unfold getFilterCondition, Sql.and, Sql.eq_bool in S; simpl in S;
    rewrite D in S; simpl in S; rewrite ?andb_false_r in S; discriminate.
Qed.

Lemma conditions_trash (params : EmailQueryParams) (e : Email) :
  q_filter params = Some EmailFilter.trash ->
  Sql.and (conditionsOf params) e = true -> isDeleted e = true.
Proof.
  intros T S. apply conditionsOf_filter in S. rewrite T in S.
  unfold getFilterCondition, Sql.eq_bool in S. now destruct (isDeleted e).
Qed.

(** X26. The optimistic removal of [useDeleteEmail] is what the refetch brings:
    for a list that is not threaded and not the trash, the list after
    [DELETE ?id=i], or after [DELETE ?threadId=t], is the cached list
    without the row of that id, or without the rows of that thread (a
    thread delete restricted to important rows being issued from the
    important list). *)
Theorem optimistic_delete_matches_refetch
        (env : Env) (db : DB) (params : EmailQueryParams) :
  q_threaded params = false ->
  q_filter params <> Some EmailFilter.trash ->
  (forall s i, Str.parseInt s = Some i ->
     fetchEmails params (emails (snd (DELETE env (deleteById s) db)))
     = Optimistic.remove i None (Some (fetchEmails params (emails db))))
  /\ (forall p t i, truthyStr (DeleteParams.threadId p) = Some t ->
        (DeleteParams.filter p = Some `"important" ->
         q_filter params = Some EmailFilter.important) ->
        fetchEmails params (emails (snd (DELETE env p db)))
        = Optimistic.remove i (Some t) (Some (fetchEmails params (emails db)))).
Proof.
  intros TH NT. split.
  - intros s i P. rewrite DELETE_emails.
    assert (C : deleteCondition (deleteById s) = inr (Sql.eq_int id i)).
    { unfold deleteCondition, deleteById.
      cbn [DeleteParams.threadId DeleteParams.id DeleteParams.filter].
      rewrite (parseInt_truthy s i P). cbn [truthyStr]. now rewrite P. }
    rewrite C. unfold Optimistic.remove. cbn [truthyStr].
    apply refetch_after_removal; [exact TH | | |]; unfold Sql.eq_int.
    + intros e ->. reflexivity.
    + intros e _. now apply conditions_not_deleted.
    + intros e -> _. reflexivity.
  - intros p t i T F. rewrite DELETE_emails.
    destruct (deleteCondition_thread p t T) as [c [-> Hc]].
    unfold Optimistic.remove.
    assert (T' : truthyStr (Some t) = Some t).
    { destruct (DeleteParams.threadId p) as [x|]; [|discriminate]. simpl in T.
      destruct (Str.truthy x) eqn:X; [|discriminate]. injection T as ->.
      simpl. now rewrite X. }
    rewrite T'.
    apply refetch_after_removal; [exact TH | | |].
    + intros e Ce. rewrite Hc in Ce. apply andb_true_iff in Ce. destruct Ce as [Ce _].
      apply andb_true_iff in Ce. destruct Ce as [-> _]. reflexivity.
    + intros e _. now apply conditions_not_deleted.
    + intros e Ce Se. rewrite Hc in Ce.
      destruct (Str.eqb (threadId e) t); [|reflexivity]. exfalso.
      destruct (isDeleted e) eqn:D.
      { rewrite (conditions_not_deleted params e NT D) in Se. discriminate. }
      simpl in Ce. destruct (DeleteParams.filter p) as [f|]; [|discriminate].
      destruct (Str.eqb f `"important") eqn:Ef; [|discriminate].
      apply Str_eqb_eq in Ef. subst f. specialize (F eq_refl).
      apply conditionsOf_filter in Se. rewrite F in Se.
      unfold getFilterCondition, Sql.and, Sql.eq_bool in Se. simpl in Se.
      rewrite Ce in Se. discriminate.
Qed.

Lemma optimistic_delete_matches_refetch_witness :
  let env := mkEnv 300 `"thread-x" in
  let db := mkDB [tie_kept; starred] 5 [] in
  let params := mkParams (Some EmailFilter.inbox) None false in
  fetchEmails params (emails (snd (DELETE env (deleteById `"5") db)))
  = Optimistic.remove 5 None (Some (fetchEmails params (emails db))).
Proof.
  intros env db params.
  apply (proj1 (optimistic_delete_matches_refetch env db params eq_refl
                  ltac:(discriminate)) `"5" 5).
  reflexivity.
Defined.

(** X27. The optimistic removal of [useRestoreEmail] is what the refetch brings:
    for the trash list, not threaded, the list after a restore by id (an id
    other than 0), or by thread id, is the cached list without the row of
    that id, or without the rows of that thread. *)
Theorem optimistic_restore_matches_refetch
        (env : Env) (db : DB) (params : EmailQueryParams) :
  q_threaded params = false ->
  q_filter params = Some EmailFilter.trash ->
  (forall i, i <> 0 ->
     fetchEmails params (emails (snd (PATCH env (restoreById i) db)))
     = Optimistic.remove i None (Some (fetchEmails params (emails db))))
  /\ (forall t i, Str.truthy t = true ->
        fetchEmails params (emails (snd (PATCH env (restoreByThread t) db)))
        = Optimistic.remove i (Some t) (Some (fetchEmails params (emails db)))).
Proof.
  intros TH TR.
  assert (R : forall b e, UpdateEmailRequest.isDeleted b = Some false ->
                Sql.and (conditionsOf params) (updateData env b e) = false).
  { intros b e Hb. destruct (Sql.and (conditionsOf params) (updateData env b e)) eqn:S;
      [|reflexivity].
    apply (conditions_trash params _ TR) in S. unfold updateData in S. simpl in S.
    rewrite Hb in S. discriminate S. }
  split.
  - intros i Hi. rewrite PATCH_emails.
    assert (C : patchCondition (restoreById i) = Some (Sql.eq_int id i)).
    { unfold patchCondition, restoreById. simpl.
      destruct (i =? 0) eqn:Z0; [apply Z.eqb_eq in Z0; contradiction | reflexivity]. }
    rewrite C. unfold Optimistic.remove. cbn [truthyStr].
    apply refetch_after_removal; [exact TH | | |]; unfold Sql.eq_int.
    + intros e ->. reflexivity.
    + intros e _. now apply R.
    + intros e -> _. reflexivity.
  - intros t i Ht. rewrite PATCH_emails.
    assert (T' : truthyStr (Some t) = Some t) by (simpl; now rewrite Ht).
    rewrite (patchCondition_thread (restoreByThread t) t T').
    unfold Optimistic.remove. rewrite T'.
    apply refetch_after_removal; [exact TH | | |]; unfold Sql.eq_str.
    + intros e ->. reflexivity.
    + intros e _. now apply R.
    + intros e -> _. reflexivity.
Qed.

Lemma optimistic_restore_matches_refetch_witness :
  let env := mkEnv 300 `"thread-x" in
  let db := mkDB [tie_kept; tie_trashed] 2 [] in
  let params := mkParams (Some EmailFilter.trash) None false in
  fetchEmails params (emails (snd (PATCH env (restoreById 2) db)))
  = Optimistic.remove 2 None (Some (fetchEmails params (emails db))).
Proof.
  intros env db params.
  apply (proj1 (optimistic_restore_matches_refetch env db params eq_refl eq_refl) 2).
  discriminate.
Defined.

(** ** Witnesses and summaries *)

Lemma fetchEmails_unthreaded_witness :
  let params := mkParams (Some EmailFilter.inbox) None false in
  Permutation (fetchEmails params [tie_kept; tie_trashed; starred])
              (List.filter (Sql.and (conditionsOf params)) [tie_kept; tie_trashed; starred])
  /\ Sorted (fun a b => createdAt b <= createdAt a)
            (fetchEmails params [tie_kept; tie_trashed; starred]).
Proof.
  intros params.
  apply (fetchEmails_unthreaded params [tie_kept; tie_trashed; starred]). reflexivity.
Defined.

(** X4. The threaded query, for every table and conditions: each row it returns
    is a row of the table created at the latest creation time among the rows
    of its thread that match the conditions, and each thread with a matching
    row is represented by a matching row with that latest creation time. *)
Theorem fetchThreadedEmails_complete (cs : list SQL) (rows : list Email) :
  (forall e, In e (fetchThreadedEmails cs rows) ->
     In e rows
     /\ (exists a, In a rows /\ Sql.and cs a = true
                   /\ threadId a = threadId e /\ createdAt a = createdAt e)
     /\ (forall a, In a rows -> Sql.and cs a = true -> threadId a = threadId e ->
                   createdAt a <= createdAt e))
  /\ (forall a, In a rows -> Sql.and cs a = true ->
        exists e, In e (fetchThreadedEmails cs rows)
                  /\ Sql.and cs e = true
                  /\ threadId e = threadId a
                  /\ createdAt a <= createdAt e).
Proof.
  split.
  - intros e. apply fetchThreadedEmails_latest.
  - intros a. apply fetchThreadedEmails_covers.
Qed.

Lemma fetchThreadedEmails_complete_witness :
  exists e, In e (fetchThreadedEmails [getFilterCondition (Some EmailFilter.inbox)]
                                      [tie_kept; starred])
            /\ Sql.and [getFilterCondition (Some EmailFilter.inbox)] e = true
            /\ threadId e = threadId tie_kept
            /\ createdAt tie_kept <= createdAt e.
Proof.
  apply (proj2 (fetchThreadedEmails_complete
                  [getFilterCondition (Some EmailFilter.inbox)] [tie_kept; starred])
               tie_kept).
  - now left.
  - reflexivity.
Defined.

Lemma fetchEmails_blank_query_witness :
  fetchEmails (mkParams (Some EmailFilter.inbox) (Some [32; 9]%N) true) [tie_kept; starred]
  = fetchEmails (mkParams (Some EmailFilter.inbox) None true) [tie_kept; starred].
Proof.
  apply (fetchEmails_blank_query (Some EmailFilter.inbox) [32; 9]%N true [tie_kept; starred]).
  reflexivity.
Defined.

Lemma getSearchConditions_percent_witness :
  getSearchConditions `"%" reply_sent = true.
Proof.
  apply (getSearchConditions_percent `"%" reply_sent). repeat constructor.
Defined.

